(** * Login ETL service: a shallow embedding of [login_etl.py]

    The service polls an SQS queue, validates and transforms each login
    event, and inserts the transformed row into a PostgreSQL table.

    Python values are embedded as the inductive [value]; a [dict] is an
    association list in insertion order (CPython dictionaries iterate in
    insertion order, and the INSERT statement built by [write] depends on
    it).  Exceptions are explicit: pure code returns [res], code that talks
    to the queue or to the database runs in the state-and-exception monad
    [M] over a [world] that records every call made to an external client. *)

From Stdlib Require Import List String Ascii Arith Bool ZArith Lia.
From Stdlib Require Import Permutation.
Import ListNotations.
Open Scope string_scope.

(** ** Exceptions and results *)

Inductive exn : Type :=
| KeyError (key : string)
| TypeError
| AttributeError
| ValueError
| IndexError
| JSONDecodeError
| ClientError          (* botocore: transport or service failure *)
| DatabaseError.       (* psycopg2: the statement was refused *)

Inductive res (A : Type) : Type :=
| OK (a : A)
| Raise (e : exn).

Arguments OK {A} a.
Arguments Raise {A} e.

Definition res_bind {A B} (r : res A) (k : A -> res B) : res B :=
  match r with
  | OK a => k a
  | Raise e => Raise e
  end.

Notation "'let?' x ':=' r 'in' k" := (res_bind r (fun x => k))
  (at level 10, x name, r at level 100, k at level 200).

(** ** Values *)

#[local] Set Warnings "-register-all".

(** [datetime.date]: a calendar date without time of day. *)
Record date : Type := mkDate { year : nat; month : nat; day : nat }.

(** What [json.loads] can return, plus [datetime.date], which [_transform]
    stores under [create_date].  A character of a [str] is an [ascii]; a
    float is kept as its binary64 bit pattern, no operation looks into it. *)
Inductive value : Type :=
| VNone
| VBool (b : bool)
| VInt (n : Z)
| VFloat (bits : Z)
| VStr (s : string)
| VList (items : list value)
| VDict (entries : list (string * value))
| VDate (d : date).

(** ** Dictionaries *)

Definition dict : Type := list (string * value).

Definition keys (d : dict) : list string := map fst d.
Definition values (d : dict) : list value := map snd d.

(** [d.get(k)] *)
Fixpoint dict_get (k : string) (d : dict) : option value :=
  match d with
  | [] => None
  | (k', v) :: rest => if k =? k' then Some v else dict_get k rest
  end.

(** [k in d] *)
Definition dict_mem (k : string) (d : dict) : bool :=
  match dict_get k d with
  | Some _ => true
  | None => false
  end.

(** [d[k]] *)
Definition getitem (k : string) (d : dict) : res value :=
  match dict_get k d with
  | Some v => OK v
  | None => Raise (KeyError k)
  end.

(** [d[k] = v]: an existing key keeps its position, a new key goes last. *)
Fixpoint setitem (k : string) (v : value) (d : dict) : dict :=
  match d with
  | [] => [(k, v)]
  | (k', v') :: rest =>
      if k =? k' then (k, v) :: rest else (k', v') :: setitem k v rest
  end.

Definition remove_key (k : string) (d : dict) : dict :=
  filter (fun kv => negb (k =? fst kv)) d.

(** [del d[k]] *)
Definition delitem (k : string) (d : dict) : res dict :=
  if dict_mem k d then OK (remove_key k d) else Raise (KeyError k).

(** The keys of a Python dictionary are pairwise distinct. *)
Definition well_formed (d : dict) : Prop := NoDup (keys d).

(** ** Sequences and strings *)

(** [len(s)] and the slices [s[mid:]], [s[:mid]] of a [str]. *)
Definition len (s : string) : nat := String.length s.

Definition slice_from (mid : nat) (s : string) : string :=
  string_of_list_ascii (skipn mid (list_ascii_of_string s)).

Definition slice_to (mid : nat) (s : string) : string :=
  string_of_list_ascii (firstn mid (list_ascii_of_string s)).

(** [s.replace(old, new)] for a non-empty [old]: occurrences are replaced
    from left to right without overlap.  [skip] counts the characters of a
    matched occurrence that are still to be dropped. *)
Fixpoint replace_from (old new : string) (skip : nat) (s : string) : string :=
  match s with
  | EmptyString => EmptyString
  | String c rest =>
      match skip with
      | S k => replace_from old new k rest
      | O =>
          if prefix old s
          then new ++ replace_from old new (String.length old - 1) rest
          else String c (replace_from old new 0 rest)
      end
  end.

Definition replace (old new s : string) : string := replace_from old new 0 s.

(** [sub in s] on strings. *)
Definition is_substring (sub s : string) : bool :=
  match index 0 sub s with
  | Some _ => true
  | None => false
  end.

(** ** LoginETLService: validation and transformation *)

Definition _expected_raw_login_fields : list string :=
  ["user_id"; "device_type"; "ip"; "device_id"; "locale"; "app_version"].

(** [field in data]: key membership on a dict, element membership on a
    list, substring test on a str; other values are not containers. *)
Definition contains (field : string) (data : value) : res bool :=
  match data with
  | VDict d => OK (dict_mem field d)
  | VList items =>
      OK (existsb (fun x => match x with
                            | VStr s => s =? field
                            | _ => false
                            end) items)
  | VStr s => OK (is_substring field s)
  | _ => Raise TypeError
  end.

(** [all(field in data for field in fields)]: stops at the first [False]. *)
Fixpoint all_fields_in (fields : list string) (data : value) : res bool :=
  match fields with
  | [] => OK true
  | field :: rest =>
      let? b := contains field data in
      if b then all_fields_in rest data else OK false
  end.

Definition _is_valid (data : value) : res bool :=
  match data with
  | VNone => OK false
  | _ => all_fields_in _expected_raw_login_fields data
  end.

(** [data[mid:] + data[:mid]] on a str. *)
Definition mask_str (data : string) : string :=
  let mid := len data / 2 in
  slice_from mid data ++ slice_to mid data.

Definition mask_list (data : list value) : list value :=
  let mid := List.length data / 2 in
  (skipn mid data ++ firstn mid data)%list.

(** [_mask] is annotated for [str]; a list slices and concatenates the same
    way, and [len] raises [TypeError] on the other values.  A dict has a
    length but no slices: [TypeError] (unhashable slice) before CPython 3.12,
    which the embedding follows, [KeyError] on the slice from 3.12 on. *)
Definition _mask (data : value) : res value :=
  match data with
  | VStr s => OK (VStr (mask_str s))
  | VList items => OK (VList (mask_list items))
  | _ => Raise TypeError
  end.

(** [v.replace(".", empty)], every dot deleted. *)
Definition strip_dots (v : string) : string := replace "." EmptyString v.

Definition value_replace_dots (v : value) : res value :=
  match v with
  | VStr s => OK (VStr (strip_dots s))
  | VDate _ => Raise TypeError
  | _ => Raise AttributeError
  end.

(** [_transform] mutates [data] and returns it; the embedding returns the
    dictionary as it is after the last statement.  [today] is what
    [datetime.date.today()] answers. *)
Definition _transform (today : date) (data : value) : res dict :=
  match data with
  | VDict d =>
      let? ip := getitem "ip" d in
      let? masked_ip := _mask ip in
      let d := setitem "masked_ip" masked_ip d in
      let? device_id := getitem "device_id" d in
      let? masked_device_id := _mask device_id in
      let d := setitem "masked_device_id" masked_device_id d in
      let? app_version := getitem "app_version" d in
      let? stripped := value_replace_dots app_version in
      let d := setitem "app_version" stripped d in
      let d := setitem "create_date" (VDate today) d in
      let? d := delitem "ip" d in
      let? d := delitem "device_id" d in
      OK d
  | _ => Raise TypeError
  end.

(** ** External services

    The boto3 client and the psycopg2 connection are outside the program.
    The [world] holds what they will answer and what they hold, and logs
    every request the program sends them, oldest first. *)

(** One entry of [response["Messages"]]. *)
Record message : Type := mkMessage { ReceiptHandle : string; Body : string }.

(** The answer of SQS to ReceiveMessage; the key [Messages] may be absent. *)
Record response : Type := mkResponse { Messages : option (list message) }.

(** [psycopg2.sql]: composable pieces of a statement. *)
Inductive composable : Type :=
| SQL (text : string)
| Identifier (name : string)
| Composed (parts : list composable).

Inductive call : Type :=
| SqsReceiveMessage (QueueUrl : string)
| SqsDeleteMessage (QueueUrl : string) (handle : string)
| PgExecute (statement : composable) (parameters : list value)
| PgCommit
| PgRollback.

(** A statement with its bound parameters, as the server received it. *)
Definition executed : Type := (composable * list value)%type.

(** The table store behind the connection: what is committed, and what the
    open transaction has executed so far. *)
Record database : Type := mkDatabase {
  committed : list executed;
  pending : list executed
}.

Record world : Type := mkWorld {
  sqs_replies : list (res response);      (* answers to the coming receives *)
  sqs_delete_ok : string -> bool;         (* is the deletion of a handle acknowledged *)
  pg_accepts : database -> composable -> list value -> bool;
  pg_commit_ok : database -> bool;
  db : database;
  today : date;
  trace : list call
}.

Definition log (c : call) (w : world) : world :=
  mkWorld (sqs_replies w) (sqs_delete_ok w) (pg_accepts w) (pg_commit_ok w)
          (db w) (today w) (trace w ++ [c]).

Definition set_sqs_replies (replies : list (res response)) (w : world) : world :=
  mkWorld replies (sqs_delete_ok w) (pg_accepts w) (pg_commit_ok w)
          (db w) (today w) (trace w).

Definition set_db (d : database) (w : world) : world :=
  mkWorld (sqs_replies w) (sqs_delete_ok w) (pg_accepts w) (pg_commit_ok w)
          d (today w) (trace w).

(** ** The monad of effectful code: state, and exceptions that keep it *)

Definition M (A : Type) : Type := world -> res A * world.

Definition ret {A} (a : A) : M A := fun w => (OK a, w).

Definition raise {A} (e : exn) : M A := fun w => (Raise e, w).

Definition bind {A B} (m : M A) (k : A -> M B) : M B :=
  fun w =>
    match m w with
    | (OK a, w') => k a w'
    | (Raise e, w') => (Raise e, w')
    end.

Definition lift {A} (r : res A) : M A := fun w => (r, w).

Notation "'let!' x ':=' m 'in' k" := (bind m (fun x => k))
  (at level 10, x name, m at level 100, k at level 200).

(** [datetime.date.today()] *)
Definition date_today : M date := fun w => (OK (today w), w).

(** *** boto3 SQS client *)

(** An exhausted script answers like an empty queue: no [Messages] key. *)
Definition client_receive_message (QueueUrl : string) : M response :=
  fun w =>
    let w1 := log (SqsReceiveMessage QueueUrl) w in
    match sqs_replies w with
    | [] => (OK (mkResponse None), w1)
    | reply :: later => (reply, set_sqs_replies later w1)
    end.

Definition client_delete_message (QueueUrl handle : string) : M unit :=
  fun w =>
    let w1 := log (SqsDeleteMessage QueueUrl handle) w in
    if sqs_delete_ok w handle then (OK tt, w1) else (Raise ClientError, w1).

(** *** psycopg2 *)

(** [sep.join(seq)] of [psycopg2.sql.SQL]. *)
Definition sql_join (sep : composable) (seq : list composable) : composable :=
  match seq with
  | [] => Composed []
  | first :: rest => Composed (first :: flat_map (fun item => [sep; item]) rest)
  end.

Definition flush (literal : string) : list composable :=
  match literal with
  | EmptyString => []
  | _ => [SQL literal]
  end.

(** [SQL(template).format( *args )] for templates whose only replacement
    fields are the automatically numbered braces pair; [literal] is the text
    read since the last field.  Other uses of a brace are outside this
    fragment and answered by [ValueError]. *)
Fixpoint format_parts (template literal : string) (args : list composable)
  : res (list composable) :=
  match template with
  | EmptyString => OK (flush literal)
  | String "{" (String "}" rest) =>
      match args with
      | [] => Raise IndexError
      | arg :: args' =>
          let? parts := format_parts rest EmptyString args' in
          OK (flush literal ++ arg :: parts)%list
      end
  | String "{" _ => Raise ValueError
  | String "}" _ => Raise ValueError
  | String c rest => format_parts rest (literal ++ String c EmptyString) args
  end.

Definition sql_format (template : string) (args : list composable) : res composable :=
  let? parts := format_parts template EmptyString args in
  OK (Composed parts).

(** [cursor.execute(statement, parameters)] inside the open transaction. *)
Definition cursor_execute (statement : composable) (parameters : list value) : M unit :=
  fun w =>
    let w1 := log (PgExecute statement parameters) w in
    if pg_accepts w (db w) statement parameters
    then (OK tt,
          set_db (mkDatabase (committed (db w))
                             (pending (db w) ++ [(statement, parameters)])) w1)
    else (Raise DatabaseError, w1).

Definition connection_commit : M unit :=
  fun w =>
    let w1 := log PgCommit w in
    if pg_commit_ok w (db w)
    then (OK tt, set_db (mkDatabase (committed (db w) ++ pending (db w)) []) w1)
    else (Raise DatabaseError, set_db (mkDatabase (committed (db w)) []) w1).

Definition connection_rollback : M unit :=
  fun w => (OK tt, set_db (mkDatabase (committed (db w)) []) (log PgRollback w)).

(** [with connection: body]: the transaction is committed when [body]
    returns and rolled back when it raises; the exception goes on. *)
Definition with_connection {A} (body : M A) : M A :=
  fun w =>
    match body w with
    | (OK a, w') =>
        match connection_commit w' with
        | (OK _, w'') => (OK a, w'')
        | (Raise e, w'') => (Raise e, w'')
        end
    | (Raise e, w') => (Raise e, snd (connection_rollback w'))
    end.

(** ** The service *)

Section Service.

(** [json.loads] *)
Variable json_loads : string -> res value.

(** [self.queue_url] and [self.table] *)
Variable queue_url : string.
Variable table : string.

(** *** SQSInterface *)

Definition _delete_message (receipt_handle : string) : M unit :=
  client_delete_message queue_url receipt_handle.

Definition receive_message : M value :=
  let! response := client_receive_message queue_url in
  match Messages response with
  | None => ret VNone
  | Some [] => ret VNone
  | Some (message :: _) =>
      let! _ := _delete_message (ReceiptHandle message) in
      lift (json_loads (Body message))
  end.

(** *** PostgreSQLInterface *)

Definition placeholders_of (row : dict) : string :=
  "(" ++ String.concat ", " (repeat "%s" (List.length row)) ++ ")".

Definition write (table : string) (row : dict) : M unit :=
  let table_name := Identifier table in
  let column_names := sql_join (SQL ", ") (map Identifier (keys row)) in
  let placeholders := placeholders_of row in
  with_connection
    (let! statement :=
       lift (sql_format ("INSERT INTO {} ({}) VALUES " ++ placeholders ++ ";")
                        [table_name; column_names]) in
     cursor_execute statement (values row)).

(** *** LoginETLService *)

(** One pass through the body of [while True].  The clock is read inside
    [_transform]; reading it changes nothing, so it is read up front. *)
Definition iteration : M unit :=
  let! data := receive_message in
  let! valid := lift (_is_valid data) in
  if negb valid then ret tt
  else
    let! today := date_today in
    let! data := lift (_transform today data) in
    write table data.

(** [start] never returns normally; [iterations] bounds how many passes
    are observed.  An exception leaves the loop. *)
Fixpoint start (iterations : nat) : M unit :=
  match iterations with
  | O => ret tt
  | S n => let! _ := iteration in start n
  end.

End Service.

(** ** Observations used to state the properties *)

(** The message the coming receive will retrieve, when there is one. *)
Definition next_message (w : world) : option message :=
  match sqs_replies w with
  | OK reply :: _ =>
      match Messages reply with
      | Some (m :: _) => Some m
      | _ => None
      end
  | _ => None
  end.

(** The requests sent through the database connection. *)
Definition is_pg_call (c : call) : bool :=
  match c with
  | PgExecute _ _ | PgCommit | PgRollback => true
  | _ => false
  end.

Definition pg_calls (t : list call) : list call := filter is_pg_call t.

(** How many positions of [s] start with [sub]. *)
Fixpoint count_occurrences (sub s : string) : nat :=
  match s with
  | EmptyString => 0
  | String _ rest => (if prefix sub s then 1 else 0) + count_occurrences sub rest
  end.

Fixpoint brace_free (s : string) : bool :=
  match s with
  | EmptyString => true
  | String c rest =>
      negb (Ascii.eqb c "{") && negb (Ascii.eqb c "}") && brace_free rest
  end.

(** The statement [write] is shown to send for [row] (C10). *)
Definition insert_statement (table : string) (row : dict) : composable :=
  Composed [SQL "INSERT INTO "; Identifier table; SQL " (";
            sql_join (SQL ", ") (map Identifier (keys row));
            SQL (") VALUES " ++ placeholders_of row ++ ";")].

(** Does [v] hold a dot. *)
Fixpoint has_dot (v : string) : bool :=
  match v with
  | EmptyString => false
  | String c rest => Ascii.eqb "." c || has_dot rest
  end.

(** The values [_mask] can slice, and the values with a [str.replace]. *)
Definition is_sequence (v : value) : bool :=
  match v with
  | VStr _ | VList _ => true
  | _ => false
  end.

Definition is_str (v : value) : bool :=
  match v with
  | VStr _ => true
  | _ => false
  end.

(** How many receive requests a trace holds. *)
Definition is_receive (c : call) : bool :=
  match c with
  | SqsReceiveMessage _ => true
  | _ => false
  end.

Definition count_receives (t : list call) : nat :=
  List.length (filter is_receive t).

(** The values that are no container: [field in data] raises on them. *)
Definition is_scalar (v : value) : bool :=
  match v with
  | VBool _ | VInt _ | VFloat _ | VDate _ => true
  | _ => false
  end.

(** The statements [write] sends for [table]. *)
Definition is_insert_into (table : string) (x : executed) : Prop :=
  exists row, x = (insert_statement table row, values row).

(** ** Sample data *)

(** The end-to-end event of the specification. *)
Definition sample_event : dict :=
  [ ("user_id", VStr "42"); ("device_type", VStr "android");
    ("ip", VStr "10.0.0.1"); ("device_id", VStr "dev-99");
    ("locale", VStr "fr-FR"); ("app_version", VStr "3.10.2") ].

(** The same event without [locale], with a null [locale], and with two
    keys more. *)
Definition sample_without_locale : dict := remove_key "locale" sample_event.

Definition sample_null_locale : dict := setitem "locale" VNone sample_event.

Definition sample_with_extras : dict :=
  setitem "os" (VStr "14") (setitem "retries" (VInt 3) sample_event).

(** The sample event with the address sent as a number. *)
Definition sample_numeric_ip : dict := setitem "ip" (VInt 167772161) sample_event.

Definition sample_day : date := mkDate 2024 1 15.

(** A stand-in for [json.loads] that knows one document. *)
Definition sample_body : string := "<login 42>".

Definition sample_json_loads (body : string) : res value :=
  if body =? sample_body then OK (VDict sample_event) else Raise JSONDecodeError.

Definition sample_queue_url : string := "http://localhost:4566/000000000000/login-queue".

Definition sample_table : string := "user_logins".

Definition sample_message : message := mkMessage "receipt-1" sample_body.

(** A world whose queue holds the sample message, and one whose queue is
    empty; the database accepts every statement and every commit. *)
Definition sample_world : world :=
  mkWorld [OK (mkResponse (Some [sample_message]))]
          (fun _ => true) (fun _ _ _ => true) (fun _ => true)
          (mkDatabase [] []) sample_day [].

Definition idle_world : world :=
  mkWorld [OK (mkResponse None)]
          (fun _ => true) (fun _ _ _ => true) (fun _ => true)
          (mkDatabase [] []) sample_day [].

(** A world whose database refuses every statement. *)
Definition refusing_world : world :=
  mkWorld [] (fun _ => true) (fun _ _ _ => false) (fun _ => true)
          (mkDatabase [] []) sample_day [].

(** The row [_transform] makes of the sample event on [sample_day]. *)
Definition sample_row : dict :=
  [ ("user_id", VStr "42"); ("device_type", VStr "android");
    ("locale", VStr "fr-FR"); ("app_version", VStr "3102");
    ("masked_ip", VStr ".0.110.0"); ("masked_device_id", VStr "-99dev");
    ("create_date", VDate sample_day) ].

(** A world whose queue holds a message that [sample_json_loads] cannot
    parse, one whose queue refuses deletions, and one whose queue holds the
    sample message while the database refuses every statement. *)
Definition garbled_world : world :=
  mkWorld [OK (mkResponse (Some [mkMessage "receipt-2" "{"]))]
          (fun _ => true) (fun _ _ _ => true) (fun _ => true)
          (mkDatabase [] []) sample_day [].

Definition undeletable_world : world :=
  mkWorld [OK (mkResponse (Some [sample_message]))]
          (fun _ => false) (fun _ _ _ => true) (fun _ => true)
          (mkDatabase [] []) sample_day [].

Definition refused_insert_world : world :=
  mkWorld [OK (mkResponse (Some [sample_message]))]
          (fun _ => true) (fun _ _ _ => false) (fun _ => true)
          (mkDatabase [] []) sample_day [].

(** A stand-in for [json.loads] whose every document is the sample event
    without [locale]. *)
Definition incomplete_json_loads (body : string) : res value :=
  OK (VDict sample_without_locale).

(** * Properties *)

(** ** Strings and rotations *)

Lemma length_list_ascii_of_string (s : string) :
  List.length (list_ascii_of_string s) = String.length s.
Proof.
  induction s as [|c s IH]; simpl; [reflexivity | now rewrite IH].
Qed.

Lemma string_of_list_ascii_app (a b : list ascii) :
  string_of_list_ascii (a ++ b)%list =
  string_of_list_ascii a ++ string_of_list_ascii b.
Proof.
  induction a as [|c a IH]; simpl; [reflexivity | now rewrite IH].
Qed.

(** Splitting at [k] and swapping the halves is undone by splitting the
    result at [length l - k] and swapping again. *)
Lemma swap_halves_back {A} (l : list A) (k j : nat) :
  k <= List.length l -> j = List.length l - k ->
  (skipn j (skipn k l ++ firstn k l) ++ firstn j (skipn k l ++ firstn k l))%list = l.
Proof.
  intros Hk Hj.
  assert (Hlen : List.length (skipn k l) = j) by (rewrite length_skipn; lia).
  rewrite skipn_app, firstn_app, Hlen, Nat.sub_diag.
  rewrite <- Hlen at 1 2.
  rewrite skipn_all, firstn_all. simpl.
  rewrite app_nil_r. apply firstn_skipn.
Qed.

Lemma mask_str_as_list (s : string) :
  list_ascii_of_string (mask_str s) =
  (skipn (String.length s / 2) (list_ascii_of_string s) ++
   firstn (String.length s / 2) (list_ascii_of_string s))%list.
Proof.
  unfold mask_str, slice_from, slice_to, len.
  rewrite <- string_of_list_ascii_app.
  apply list_ascii_of_string_of_list_ascii.
Qed.

Lemma len_mask_str (s : string) : len (mask_str s) = len s.
Proof.
  unfold len.
  rewrite <- (length_list_ascii_of_string (mask_str s)), mask_str_as_list.
  rewrite length_app, length_skipn, length_firstn, length_list_ascii_of_string.
  assert (String.length s / 2 <= String.length s) by (apply Nat.Div0.div_le_upper_bound; lia).
  lia.
Qed.

Lemma mask_str_undo (s : string) (j : nat) :
  j = len s - len s / 2 ->
  slice_from j (mask_str s) ++ slice_to j (mask_str s) = s.
Proof.
  intros Hj. unfold slice_from, slice_to.
  rewrite <- string_of_list_ascii_app, mask_str_as_list.
  rewrite swap_halves_back.
  - apply string_of_list_ascii_of_string.
  - rewrite length_list_ascii_of_string. apply Nat.Div0.div_le_upper_bound; lia.
  - rewrite length_list_ascii_of_string. exact Hj.
Qed.

Lemma even_half (n : nat) : Nat.even n = true -> n - n / 2 = n / 2.
Proof.
  intros H. apply Nat.even_spec in H. destruct H as [m ->].
  rewrite Nat.mul_comm, Nat.div_mul by lia. lia.
Qed.

(** [mask_str] is injective: distinct strings never share a masked form. *)
Lemma mask_str_injective (s t : string) : mask_str s = mask_str t -> s = t.
Proof.
  intros H.
  assert (Hlen : len s = len t) by (rewrite <- (len_mask_str s), H; apply len_mask_str).
  rewrite <- (mask_str_undo s (len s - len s / 2) eq_refl).
  rewrite <- (mask_str_undo t (len s - len s / 2)) by (now rewrite Hlen).
  now rewrite H.
Qed.

(** ** Version normalisation *)

Lemma strip_dots_cons (c : ascii) (v : string) :
  strip_dots (String c v) =
  if ascii_dec "." c then strip_dots v else String c (strip_dots v).
Proof.
  unfold strip_dots, replace.
  cbn [replace_from prefix String.length Nat.sub].
  destruct (ascii_dec "." c); destruct v; reflexivity.
Qed.

(** Deleting every dot: the result is the characters of [v] other than
    the dot, in their order. *)
Lemma strip_dots_filter (v : string) :
  list_ascii_of_string (strip_dots v) =
  filter (fun c => negb (Ascii.eqb "." c)) (list_ascii_of_string v).
Proof.
  induction v as [|c v IH]; [reflexivity|].
  rewrite strip_dots_cons. cbn [list_ascii_of_string filter].
  destruct (ascii_dec "." c) as [<-|Hne].
  - rewrite Ascii.eqb_refl. exact IH.
  - apply Ascii.eqb_neq in Hne. rewrite Hne.
    cbn [negb list_ascii_of_string]. now rewrite IH.
Qed.

(** C1, counterexample: a string of odd length that masking twice does not
    give back. [mask("abc") = "bca"] and [mask("bca") = "cab"]. *)
Lemma mask_twice_odd_counterexample :
  mask_str "abc" = "bca" /\ mask_str (mask_str "abc") = "cab" /\
  mask_str (mask_str "abc") <> "abc".
Proof.
  repeat split; try reflexivity. discriminate.
Qed.

(** C1, amended: masking is undone by swapping the halves of the masked
    string at [len s - len s / 2]; for a string of even length that is the
    split point [mask] itself uses, so masking twice gives the string back. *)
Theorem mask_recoverable (s : string) :
  (let j := len s - len s / 2 in
   slice_from j (mask_str s) ++ slice_to j (mask_str s) = s) /\
  (Nat.even (len s) = true -> mask_str (mask_str s) = s).
Proof.
  split.
  - apply mask_str_undo. reflexivity.
  - intros Heven. unfold mask_str at 1. rewrite len_mask_str.
    apply mask_str_undo. symmetry. apply even_half. exact Heven.
Qed.

Lemma mask_recoverable_witness :
  Nat.even (len "abcdef") = true /\ mask_str (mask_str "abcdef") = "abcdef".
Proof.
  split; [reflexivity | apply (proj2 (mask_recoverable "abcdef")); reflexivity].
Defined.

(** C9: deleting the dots of a string that has already lost its dots
    changes nothing. *)
Theorem strip_dots_idempotent (v : string) :
  strip_dots (strip_dots v) = strip_dots v.
Proof.
  induction v as [|c v IH]; [reflexivity|].
  rewrite strip_dots_cons.
  destruct (ascii_dec "." c) as [Heq|Hne]; [exact IH|].
  rewrite strip_dots_cons.
  destruct (ascii_dec "." c); [contradiction | now rewrite IH].
Qed.

(** ** Dictionaries *)

Lemma dict_get_In_keys (k : string) (d : dict) :
  (exists v, dict_get k d = Some v) <-> In k (keys d).
Proof.
  induction d as [|[k' v'] d IH]; simpl.
  - split; [intros [v Hv]; discriminate | contradiction].
  - destruct (String.eqb_spec k k') as [->|Hne].
    + split; [now left | intros _; now exists v'].
    + rewrite IH. split; [now right | intros [Heq|Hin]; [congruence | exact Hin]].
Qed.

Lemma dict_mem_In (k : string) (d : dict) :
  dict_mem k d = true <-> In k (keys d).
Proof.
  rewrite <- dict_get_In_keys. unfold dict_mem.
  destruct (dict_get k d) as [v|].
  - split; [intros _; now exists v | reflexivity].
  - split; [discriminate | intros [v Hv]; discriminate].
Qed.

Lemma dict_mem_false (k : string) (d : dict) :
  dict_mem k d = false <-> ~ In k (keys d).
Proof.
  rewrite <- dict_mem_In. destruct (dict_mem k d); split; congruence.
Qed.

Lemma dict_get_setitem_eq (k : string) (v : value) (d : dict) :
  dict_get k (setitem k v d) = Some v.
Proof.
  induction d as [|[k' v'] d IH]; simpl.
  - now rewrite String.eqb_refl.
  - destruct (String.eqb_spec k k') as [->|Hne]; simpl.
    + now rewrite String.eqb_refl.
    + apply String.eqb_neq in Hne. now rewrite Hne.
Qed.

Lemma dict_get_setitem_neq (k k' : string) (v : value) (d : dict) :
  k <> k' -> dict_get k (setitem k' v d) = dict_get k d.
Proof.
  intros Hne. apply String.eqb_neq in Hne.
  induction d as [|[k0 v0] d IH]; simpl.
  - now rewrite Hne.
  - destruct (String.eqb_spec k' k0) as [->|Hne0]; simpl.
    + now rewrite Hne.
    + now rewrite IH.
Qed.

Lemma keys_setitem (k k' : string) (v : value) (d : dict) :
  In k (keys (setitem k' v d)) <-> k = k' \/ In k (keys d).
Proof.
  rewrite <- !dict_get_In_keys.
  destruct (String.eqb_spec k k') as [->|Hne].
  - rewrite dict_get_setitem_eq. split; [now left | intros _; now exists v].
  - rewrite dict_get_setitem_neq by exact Hne.
    split; [now right | intros [Heq|H]; [contradiction | exact H]].
Qed.

Lemma dict_get_remove_key_eq (k : string) (d : dict) :
  dict_get k (remove_key k d) = None.
Proof.
  induction d as [|[k' v'] d IH]; simpl; [reflexivity|].
  destruct (String.eqb_spec k k') as [->|Hne]; simpl; [exact IH|].
  apply String.eqb_neq in Hne. now rewrite Hne.
Qed.

Lemma dict_get_remove_key_neq (k k' : string) (d : dict) :
  k <> k' -> dict_get k (remove_key k' d) = dict_get k d.
Proof.
  intros Hne.
  induction d as [|[k0 v0] d IH]; simpl; [reflexivity|].
  destruct (String.eqb_spec k' k0) as [->|Hne0]; simpl.
  - apply String.eqb_neq in Hne. now rewrite Hne.
  - now rewrite IH.
Qed.

Lemma keys_remove_key (k k' : string) (d : dict) :
  In k (keys (remove_key k' d)) <-> k <> k' /\ In k (keys d).
Proof.
  rewrite <- !dict_get_In_keys.
  destruct (String.eqb_spec k k') as [->|Hne].
  - rewrite dict_get_remove_key_eq.
    split; [intros [v Hv]; discriminate | intros [Hk _]; contradiction].
  - rewrite dict_get_remove_key_neq by exact Hne.
    split; [now split | now intros [_ H]].
Qed.

(** The operations keep the keys pairwise distinct. *)
Lemma setitem_keys_fresh (k : string) (v : value) (d : dict) :
  ~ In k (keys d) -> keys (setitem k v d) = (keys d ++ [k])%list.
Proof.
  induction d as [|[k' v'] d IH]; simpl; intros Hnot; [reflexivity|].
  destruct (String.eqb_spec k k') as [->|Hne].
  - exfalso. apply Hnot. now left.
  - simpl. f_equal. apply IH. intros Hin. apply Hnot. now right.
Qed.

Lemma setitem_keys_present (k : string) (v : value) (d : dict) :
  In k (keys d) -> keys (setitem k v d) = keys d.
Proof.
  induction d as [|[k' v'] d IH]; simpl; intros Hin; [contradiction|].
  destruct (String.eqb_spec k k') as [->|Hne]; simpl; [reflexivity|].
  f_equal. apply IH. destruct Hin as [Heq|Hin]; [congruence | exact Hin].
Qed.

Lemma well_formed_setitem (k : string) (v : value) (d : dict) :
  well_formed d -> well_formed (setitem k v d).
Proof.
  unfold well_formed. intros Hwf.
  destruct (in_dec string_dec k (keys d)) as [Hin|Hnot].
  - now rewrite setitem_keys_present.
  - rewrite setitem_keys_fresh by exact Hnot.
    apply NoDup_app; [exact Hwf | repeat constructor; intros [] | ].
    intros x Hx [<-|[]]. contradiction.
Qed.

Lemma keys_remove_key_filter (k : string) (d : dict) :
  keys (remove_key k d) = filter (fun k' => negb (k =? k')) (keys d).
Proof.
  induction d as [|[k' v'] d IH]; simpl; [reflexivity|].
  destruct (k =? k'); simpl; now rewrite IH.
Qed.

Lemma well_formed_remove_key (k : string) (d : dict) :
  well_formed d -> well_formed (remove_key k d).
Proof.
  unfold well_formed. rewrite keys_remove_key_filter. apply NoDup_filter.
Qed.

(** With distinct keys, [del d[k]] takes away exactly one entry. *)
Lemma remove_key_length (k : string) (d : dict) :
  well_formed d -> In k (keys d) ->
  S (List.length (remove_key k d)) = List.length d.
Proof.
  unfold well_formed.
  induction d as [|[k' v'] d IH]; simpl; intros Hwf Hin; [contradiction|].
  inversion Hwf as [|? ? Hnot Hwf']; subst.
  destruct (String.eqb_spec k k') as [->|Hne]; simpl.
  - f_equal. unfold remove_key.
    rewrite forallb_filter_id; [reflexivity|].
    apply forallb_forall. intros [k0 v0] Hin0. simpl.
    destruct (String.eqb_spec k' k0) as [->|]; [|reflexivity].
    exfalso. apply Hnot. apply (in_map fst) in Hin0. exact Hin0.
  - f_equal. apply IH; [exact Hwf'|].
    destruct Hin as [Heq|Hin]; [congruence | exact Hin].
Qed.

(** ** Validation *)

Lemma all_fields_in_dict (fields : list string) (d : dict) :
  all_fields_in fields (VDict d) = OK (forallb (fun f => dict_mem f d) fields).
Proof.
  induction fields as [|f fields IH]; simpl; [reflexivity|].
  destruct (dict_mem f d); [exact IH | reflexivity].
Qed.

Lemma is_valid_dict (d : dict) :
  _is_valid (VDict d) =
  OK (forallb (fun f => dict_mem f d) _expected_raw_login_fields).
Proof. apply all_fields_in_dict. Qed.

(** C2, counterexample: an event that has the six keys, with [null] under
    [locale], is accepted. *)
Lemma null_value_accepted :
  dict_get "locale" sample_null_locale = Some VNone /\
  (forall f, In f _expected_raw_login_fields -> In f (keys sample_null_locale)) /\
  _is_valid (VDict sample_null_locale) = OK true.
Proof.
  split; [reflexivity|]. split; [|reflexivity].
  intros f Hf. simpl in Hf. simpl.
  repeat (destruct Hf as [<-|Hf]; [tauto|]). contradiction.
Qed.

(** C2, amended: [None] is rejected, and a dictionary is accepted exactly
    when each of the six expected keys is present in it, whatever value the
    key holds ([null] included). *)
Theorem is_valid_iff_keys_present (d : dict) :
  _is_valid VNone = OK false /\
  (_is_valid (VDict d) = OK true <->
   forall f, In f _expected_raw_login_fields -> exists v, dict_get f d = Some v).
Proof.
  split; [reflexivity|].
  rewrite is_valid_dict. split.
  - intros H f Hf.
    assert (Hall : forallb (fun f => dict_mem f d) _expected_raw_login_fields = true)
      by congruence.
    rewrite forallb_forall in Hall. apply dict_get_In_keys, dict_mem_In, Hall, Hf.
  - intros H. f_equal. apply forallb_forall. intros f Hf.
    apply dict_mem_In, dict_get_In_keys, H, Hf.
Qed.

(** C5: a dictionary that lacks one of the six expected keys is rejected;
    a dictionary that has the six of them is accepted, whatever other keys
    it has. *)
Theorem is_valid_field_set_exact (d : dict) :
  ((exists f, In f _expected_raw_login_fields /\ ~ In f (keys d)) ->
   _is_valid (VDict d) = OK false) /\
  ((forall f, In f _expected_raw_login_fields -> In f (keys d)) ->
   _is_valid (VDict d) = OK true).
Proof.
  rewrite is_valid_dict. split.
  - intros [f [Hf Hnot]]. f_equal.
    destruct (forallb _ _) eqn:Hall; [|reflexivity].
    rewrite forallb_forall in Hall. apply Hall in Hf.
    apply dict_mem_In in Hf. contradiction.
  - intros H. f_equal. apply forallb_forall. intros f Hf.
    apply dict_mem_In, H, Hf.
Qed.

Lemma is_valid_field_set_exact_witness :
  _is_valid (VDict sample_without_locale) = OK false /\
  _is_valid (VDict sample_with_extras) = OK true.
Proof.
  split.
  - apply (proj1 (is_valid_field_set_exact sample_without_locale)).
    exists "locale". split; [simpl; tauto|].
    simpl. intros H.
    repeat (destruct H as [H|H]; [discriminate H|]). contradiction.
  - apply (proj2 (is_valid_field_set_exact sample_with_extras)).
    intros f Hf. simpl in Hf. simpl.
    repeat (destruct Hf as [<-|Hf]; [tauto|]). contradiction.
Defined.

(** ** Transformation *)

Ltac distinct_keys := intros Heq; discriminate Heq.

Lemma getitem_ok (k : string) (d : dict) (v : value) :
  dict_get k d = Some v -> getitem k d = OK v.
Proof. unfold getitem. now intros ->. Qed.

Lemma delitem_ok (k : string) (d : dict) (v : value) :
  dict_get k d = Some v -> delitem k d = OK (remove_key k d).
Proof. unfold delitem, dict_mem. now intros ->. Qed.

Lemma delitem_inv (k : string) (d d' : dict) :
  delitem k d = OK d' -> d' = remove_key k d.
Proof.
  unfold delitem. destruct (dict_mem k d); [congruence | discriminate].
Qed.

(** What [_transform] returns: four assignments, then the two [del]
    statements. *)
Lemma transform_shape (today : date) (data : value) (row : dict) :
  _transform today data = OK row ->
  exists d masked_ip masked_device_id app_version,
    data = VDict d /\
    row = remove_key "device_id"
            (remove_key "ip"
               (setitem "create_date" (VDate today)
                  (setitem "app_version" app_version
                     (setitem "masked_device_id" masked_device_id
                        (setitem "masked_ip" masked_ip d))))).
Proof.
  destruct data; try discriminate. unfold _transform.
  repeat match goal with
         | |- res_bind ?r _ = OK _ -> _ =>
             destruct r eqn:?; cbn [res_bind]; [|discriminate]
         end.
  intros H. injection H as <-.
  match goal with
  | H1 : delitem "ip" _ = OK ?d1, H2 : delitem "device_id" ?d1 = OK _ |- _ =>
      apply delitem_inv in H1, H2; subst
  end.
  do 4 eexists. split; reflexivity.
Qed.

(** [_transform] keeps the keys pairwise distinct. *)
Lemma transform_well_formed (today : date) (d row : dict) :
  well_formed d -> _transform today (VDict d) = OK row -> well_formed row.
Proof.
  intros Hwf H. apply transform_shape in H.
  destruct H as (d0 & m1 & m2 & v & Hd & ->). injection Hd as <-.
  now repeat (apply well_formed_remove_key || apply well_formed_setitem).
Qed.

(** The dictionary [_transform] returns on an event whose [ip],
    [device_id] and [app_version] are strings. *)
Lemma transform_ok (today : date) (d : dict) (ip device_id app_version : string) :
  dict_get "ip" d = Some (VStr ip) ->
  dict_get "device_id" d = Some (VStr device_id) ->
  dict_get "app_version" d = Some (VStr app_version) ->
  _transform today (VDict d) =
  OK (remove_key "device_id"
       (remove_key "ip"
          (setitem "create_date" (VDate today)
             (setitem "app_version" (VStr (strip_dots app_version))
                (setitem "masked_device_id" (VStr (mask_str device_id))
                   (setitem "masked_ip" (VStr (mask_str ip)) d)))))).
Proof.
  intros Hip Hdev Hver. unfold _transform.
  rewrite (getitem_ok _ _ _ Hip). cbn [res_bind _mask].
  erewrite getitem_ok
    by (rewrite dict_get_setitem_neq by distinct_keys; exact Hdev).
  cbn [res_bind _mask].
  erewrite getitem_ok
    by (rewrite !dict_get_setitem_neq by distinct_keys; exact Hver).
  cbn [res_bind value_replace_dots].
  erewrite delitem_ok
    by (rewrite !dict_get_setitem_neq by distinct_keys; exact Hip).
  cbn [res_bind].
  erewrite delitem_ok
    by (rewrite dict_get_remove_key_neq by distinct_keys;
        rewrite !dict_get_setitem_neq by distinct_keys; exact Hdev).
  reflexivity.
Qed.

(** C3, counterexample: on the sample event the second pass does not put
    the original address under [masked_ip]; it raises [KeyError] for [ip]
    and returns no dictionary at all. *)
Lemma second_transform_counterexample :
  exists once,
    _is_valid (VDict sample_event) = OK true /\
    _transform sample_day (VDict sample_event) = OK once /\
    dict_get "masked_ip" once = Some (VStr ".0.110.0") /\
    _transform sample_day (VDict once) = Raise (KeyError "ip").
Proof.
  eexists. repeat split; reflexivity.
Qed.

(** C3, amended: whenever [_transform] returns a dictionary, running
    [_transform] on that dictionary raises [KeyError] for [ip], the key the
    first pass deleted; it is not idempotent because the second pass
    fails. *)
Theorem transform_twice_raises (today today' : date) (data : value) (once : dict) :
  _transform today data = OK once ->
  _transform today' (VDict once) = Raise (KeyError "ip").
Proof.
  intros H. apply transform_shape in H.
  destruct H as (d & m1 & m2 & v & _ & ->).
  unfold _transform, getitem.
  rewrite dict_get_remove_key_neq by distinct_keys.
  now rewrite dict_get_remove_key_eq.
Qed.

Lemma transform_twice_raises_witness :
  exists once,
    _transform sample_day (VDict sample_event) = OK once /\
    _transform sample_day (VDict once) = Raise (KeyError "ip").
Proof.
  eexists. split; [reflexivity|].
  apply (transform_twice_raises sample_day sample_day (VDict sample_event)).
  reflexivity.
Defined.

(** C4, counterexample: an event that passes validation with a number
    under [ip]; [len] raises in [_mask] and no row comes out. *)
Lemma transform_numeric_ip_counterexample :
  _is_valid (VDict sample_numeric_ip) = OK true /\
  dict_get "ip" sample_numeric_ip = Some (VInt 167772161) /\
  _transform sample_day (VDict sample_numeric_ip) = Raise TypeError.
Proof. repeat split; reflexivity. Qed.

(** C4, amended: on a valid event whose [ip], [device_id] and
    [app_version] are strings, [_transform] returns a dictionary whose keys
    are those of the event without [ip] and [device_id] and with
    [masked_ip], [masked_device_id] and [create_date]; the two masked keys
    hold the masked strings, [app_version] holds the version without its
    dots, [create_date] holds the day, and every other key holds the value
    it held. *)
Theorem transform_frame (today : date) (d : dict) (ip device_id app_version : string) :
  _is_valid (VDict d) = OK true ->
  dict_get "ip" d = Some (VStr ip) ->
  dict_get "device_id" d = Some (VStr device_id) ->
  dict_get "app_version" d = Some (VStr app_version) ->
  exists row,
    _transform today (VDict d) = OK row /\
    (forall k, In k (keys row) <->
               (In k (keys d) /\ k <> "ip" /\ k <> "device_id") \/
               k = "masked_ip" \/ k = "masked_device_id" \/ k = "create_date") /\
    dict_get "masked_ip" row = Some (VStr (mask_str ip)) /\
    dict_get "masked_device_id" row = Some (VStr (mask_str device_id)) /\
    dict_get "app_version" row = Some (VStr (strip_dots app_version)) /\
    dict_get "create_date" row = Some (VDate today) /\
    (forall k, k <> "ip" -> k <> "device_id" -> k <> "masked_ip" ->
               k <> "masked_device_id" -> k <> "app_version" ->
               k <> "create_date" -> dict_get k row = dict_get k d).
Proof.
  intros _ Hip Hdev Hver. eexists.
  split; [apply (transform_ok _ _ _ _ _ Hip Hdev Hver)|].
  split; [|repeat split].
  - intros k. rewrite !keys_remove_key, !keys_setitem. split.
    + intros [H1 [H2 H]].
      destruct H as [ -> | [ -> | [ -> | [ -> | H ]]]]; try tauto.
      left. split; [|tauto]. apply dict_get_In_keys. eauto.
    + intros [[Hin [H1 H2]] | [ -> | [ -> | -> ]]].
      * tauto.
      * split; [distinct_keys|]. split; [distinct_keys|]. tauto.
      * split; [distinct_keys|]. split; [distinct_keys|]. tauto.
      * split; [distinct_keys|]. split; [distinct_keys|]. tauto.
  - rewrite !dict_get_remove_key_neq by distinct_keys.
    rewrite !dict_get_setitem_neq by distinct_keys.
    apply dict_get_setitem_eq.
  - rewrite !dict_get_remove_key_neq by distinct_keys.
    rewrite !dict_get_setitem_neq by distinct_keys.
    apply dict_get_setitem_eq.
  - rewrite !dict_get_remove_key_neq by distinct_keys.
    rewrite dict_get_setitem_neq by distinct_keys.
    apply dict_get_setitem_eq.
  - rewrite !dict_get_remove_key_neq by distinct_keys.
    apply dict_get_setitem_eq.
  - intros k H1 H2 H3 H4 H5 H6.
    rewrite !dict_get_remove_key_neq by assumption.
    now rewrite !dict_get_setitem_neq by assumption.
Qed.

Lemma transform_frame_witness :
  exists row,
    _transform sample_day (VDict sample_with_extras) = OK row /\
    (forall k, In k (keys row) <->
               (In k (keys sample_with_extras) /\ k <> "ip" /\ k <> "device_id") \/
               k = "masked_ip" \/ k = "masked_device_id" \/ k = "create_date") /\
    dict_get "masked_ip" row = Some (VStr (mask_str "10.0.0.1")) /\
    dict_get "masked_device_id" row = Some (VStr (mask_str "dev-99")) /\
    dict_get "app_version" row = Some (VStr (strip_dots "3.10.2")) /\
    dict_get "create_date" row = Some (VDate sample_day) /\
    (forall k, k <> "ip" -> k <> "device_id" -> k <> "masked_ip" ->
               k <> "masked_device_id" -> k <> "app_version" ->
               k <> "create_date" ->
               dict_get k row = dict_get k sample_with_extras).
Proof.
  apply (transform_frame sample_day sample_with_extras); reflexivity.
Defined.

(** ** Queue client *)

Lemma trace_log (c : call) (w : world) : trace (log c w) = (trace w ++ [c])%list.
Proof. reflexivity. Qed.

(** C7: the trace after [receive_message], however it ends.  When the
    reply holds a message, the deletion request for its receipt handle has
    been sent, right after the receive request, and a returned body is the
    parsed body of that message.  When the reply holds none, nothing is
    deleted and only [None] is returned. *)
Theorem receive_message_deletes_first
  (json_loads : string -> res value) (queue_url : string) (w : world) :
  let outcome := receive_message json_loads queue_url w in
  match next_message w with
  | Some m =>
      trace (snd outcome) =
        (trace w ++ [SqsReceiveMessage queue_url;
                     SqsDeleteMessage queue_url (ReceiptHandle m)])%list /\
      (forall body, fst outcome = OK body -> json_loads (Body m) = OK body)
  | None =>
      trace (snd outcome) = (trace w ++ [SqsReceiveMessage queue_url])%list /\
      (forall body, fst outcome = OK body -> body = VNone)
  end.
Proof.
  unfold receive_message, next_message, bind, client_receive_message,
    _delete_message, client_delete_message, ret, lift.
  destruct (sqs_replies w) as [|[reply|e] later]; cbn.
  - split; [reflexivity | congruence].
  - destruct (Messages reply) as [[|m rest]|]; cbn.
    + split; [reflexivity | congruence].
    + destruct (sqs_delete_ok w (ReceiptHandle m)); cbn.
      * rewrite <- app_assoc. split; [reflexivity | trivial].
      * rewrite <- app_assoc. split; [reflexivity | discriminate].
    + split; [reflexivity | congruence].
  - split; [reflexivity | discriminate].
Qed.

Lemma receive_message_deletes_first_witness :
  trace (snd (receive_message sample_json_loads sample_queue_url sample_world)) =
    [SqsReceiveMessage sample_queue_url;
     SqsDeleteMessage sample_queue_url "receipt-1"] /\
  fst (receive_message sample_json_loads sample_queue_url sample_world) =
    OK (VDict sample_event) /\
  sample_json_loads (Body sample_message) = OK (VDict sample_event).
Proof.
  pose proof (receive_message_deletes_first
                sample_json_loads sample_queue_url sample_world) as [Htrace Hbody].
  split; [exact Htrace|]. split; [reflexivity|]. apply Hbody. reflexivity.
Defined.

(** ** Statement composition *)

Lemma append_assoc (a b c : string) : (a ++ b) ++ c = a ++ (b ++ c).
Proof.
  induction a as [|x a IH]; simpl; [reflexivity | now rewrite IH].
Qed.

Lemma brace_free_app (a b : string) :
  brace_free (a ++ b) = brace_free a && brace_free b.
Proof.
  induction a as [|x a IH]; simpl; [reflexivity|].
  rewrite IH. now rewrite andb_assoc.
Qed.

(** A character that is no brace is added to the text read so far. *)
Lemma format_parts_plain (c : ascii) (rest literal : string) (args : list composable) :
  Ascii.eqb c "{" = false -> Ascii.eqb c "}" = false ->
  format_parts (String c rest) literal args =
  format_parts rest (literal ++ String c EmptyString) args.
Proof.
  destruct c as [[] [] [] [] [] [] [] []]; intros H1 H2;
    try reflexivity; discriminate.
Qed.

Lemma format_parts_brace_free (s literal : string) (args : list composable) :
  brace_free s = true ->
  format_parts s literal args = OK (flush (literal ++ s)).
Proof.
  revert literal.
  induction s as [|c s IH]; intros literal H.
  - simpl. f_equal. f_equal. clear. induction literal; simpl; congruence.
  - simpl in H. apply andb_prop in H. destruct H as [H Hs].
    apply andb_prop in H. destruct H as [H1 H2].
    apply negb_true_iff in H1, H2.
    rewrite format_parts_plain by assumption.
    rewrite IH by assumption. now rewrite append_assoc.
Qed.

Lemma brace_free_marks (n : nat) :
  brace_free (String.concat ", " (repeat "%s" n)) = true.
Proof.
  induction n as [|[|n] IH]; try reflexivity.
  change (repeat "%s" (S (S n))) with ("%s" :: repeat "%s" (S n)).
  change (String.concat ", " ("%s" :: repeat "%s" (S n)))
    with ("%s" ++ ", " ++ String.concat ", " (repeat "%s" (S n))).
  rewrite !brace_free_app, IH. reflexivity.
Qed.

Lemma brace_free_placeholders (row : dict) :
  brace_free (placeholders_of row ++ ";") = true.
Proof.
  unfold placeholders_of.
  rewrite !brace_free_app, brace_free_marks. reflexivity.
Qed.

Lemma count_marks (n : nat) :
  count_occurrences "%s" (String.concat ", " (repeat "%s" n) ++ ");") = n.
Proof.
  induction n as [|[|n] IH]; try reflexivity.
  change (repeat "%s" (S (S n))) with ("%s" :: repeat "%s" (S n)).
  change (String.concat ", " ("%s" :: repeat "%s" (S n)))
    with ("%s" ++ ", " ++ String.concat ", " (repeat "%s" (S n))).
  rewrite !append_assoc.
  change (count_occurrences "%s"
            ("%s" ++ ", " ++ String.concat ", " (repeat "%s" (S n)) ++ ");"))
    with (S (count_occurrences "%s"
               (String.concat ", " (repeat "%s" (S n)) ++ ");"))).
  now rewrite IH.
Qed.

(** The template of [write] has two fields; what follows them is kept as
    one literal. *)
Lemma sql_format_insert (table_name column_names : composable) (tail : string) :
  brace_free tail = true ->
  sql_format ("INSERT INTO {} ({}) VALUES " ++ tail) [table_name; column_names] =
  OK (Composed [SQL "INSERT INTO "; table_name; SQL " ("; column_names;
                SQL (") VALUES " ++ tail)]).
Proof.
  intros Hfree. unfold sql_format.
  cbn [append format_parts res_bind flush app].
  rewrite format_parts_brace_free by exact Hfree.
  reflexivity.
Qed.

Lemma write_unfold (table : string) (row : dict) :
  write table row =
  with_connection (cursor_execute (insert_statement table row) (values row)).
Proof.
  unfold write, insert_statement.
  rewrite sql_format_insert by apply brace_free_placeholders.
  reflexivity.
Qed.

(** ** Store client *)

Lemma nth_error_keys_values (row : dict) (i : nat) (k : string) (v : value) :
  nth_error row i = Some (k, v) ->
  nth_error (keys row) i = Some k /\ nth_error (values row) i = Some v.
Proof.
  intros H. unfold keys, values.
  rewrite !nth_error_map, H. now split.
Qed.

(** The identifiers among the parts of a joined column list are the
    columns, in their order. *)
Lemma sql_join_identifiers (names : list string) :
  match sql_join (SQL ", ") (map Identifier names) with
  | Composed parts =>
      filter (fun part => match part with Identifier _ => true | _ => false end) parts
      = map Identifier names
  | _ => False
  end.
Proof.
  destruct names as [|name names]; [reflexivity|].
  cbn [sql_join map filter]. f_equal.
  induction names as [|name' names IH]; [reflexivity|].
  cbn [map flat_map app filter]. now rewrite IH.
Qed.

(** C10: [write] sends one statement, [INSERT INTO table (columns) VALUES
    (marks);], where the columns are the keys of the row in iteration
    order, each wrapped as an [Identifier], the marks are as many [%s] as
    the row has entries, and the parameters are the values of the row in
    the same order: the entry at position [i] gives the column at position
    [i] and the parameter at position [i].  It holds for every row, the
    empty one included. *)
Theorem write_binds_values_in_key_order (table : string) (row : dict) (w : world) :
  let columns := map Identifier (keys row) in
  let marks := String.concat ", " (repeat "%s" (List.length row)) in
  let statement :=
    Composed [SQL "INSERT INTO "; Identifier table; SQL " (";
              sql_join (SQL ", ") columns;
              SQL (") VALUES (" ++ marks ++ ");")] in
  (exists closing,
     trace (snd (write table row w)) =
       (trace w ++ [PgExecute statement (values row); closing])%list /\
     (closing = PgCommit \/ closing = PgRollback)) /\
  count_occurrences "%s" (") VALUES (" ++ marks ++ ");") = List.length row /\
  List.length columns = List.length row /\
  List.length (values row) = List.length row /\
  (forall i k v, nth_error row i = Some (k, v) ->
                 nth_error columns i = Some (Identifier k) /\
                 nth_error (values row) i = Some v).
Proof.
  intros columns marks statement.
  assert (Hstmt : insert_statement table row = statement).
  { unfold insert_statement, statement, placeholders_of, marks, columns.
    now rewrite !append_assoc. }
  split; [|split; [|split; [|split]]].
  - rewrite write_unfold, Hstmt.
    unfold with_connection, cursor_execute, connection_commit, connection_rollback.
    destruct (pg_accepts w (db w) statement (values row)); cbn.
    + exists PgCommit.
      destruct (pg_commit_ok w _); cbn; rewrite <- app_assoc; split; auto.
    + exists PgRollback. rewrite <- app_assoc. split; auto.
  - apply (count_marks (List.length row)).
  - unfold columns, keys. now rewrite !length_map.
  - unfold values. now rewrite length_map.
  - intros i k v H. apply nth_error_keys_values in H. destruct H as [Hk Hv].
    split; [|exact Hv]. unfold columns. now rewrite nth_error_map, Hk.
Qed.

(** C8: [write] runs its statement in one transaction.  The transaction
    is committed when the statement was accepted and rolled back when it
    raised; afterwards no transaction is open.  When [write] returns, what
    was committed has grown by the statement; when [write] raises, what
    was committed is what it was, and a store without an open transaction
    is left as it was. *)
Theorem write_is_atomic (table : string) (row : dict) (w : world) :
  let outcome := write table row w in
  let statement := insert_statement table row in
  pending (db (snd outcome)) = [] /\
  trace (snd outcome) =
    (trace w ++
     [PgExecute statement (values row);
      if pg_accepts w (db w) statement (values row) then PgCommit else PgRollback])%list /\
  match fst outcome with
  | OK _ =>
      committed (db (snd outcome)) =
      (committed (db w) ++ pending (db w) ++ [(statement, values row)])%list
  | Raise _ =>
      committed (db (snd outcome)) = committed (db w) /\
      (pending (db w) = [] -> db (snd outcome) = db w)
  end.
Proof.
  intros outcome statement. unfold outcome. rewrite write_unfold.
  fold statement.
  unfold with_connection, cursor_execute, connection_commit, connection_rollback.
  destruct (pg_accepts w (db w) statement (values row)); cbn.
  - destruct (pg_commit_ok w _); cbn; rewrite <- app_assoc;
      (split; [reflexivity|]); (split; [reflexivity|]).
    + now rewrite app_assoc.
    + split; [reflexivity|]. destruct (db w) as [c p]. cbn. now intros ->.
  - rewrite <- app_assoc. split; [reflexivity|]. split; [reflexivity|].
    split; [reflexivity|]. destruct (db w) as [c p]. cbn. now intros ->.
Qed.

Lemma write_binds_values_in_key_order_witness :
  trace (snd (write sample_table sample_row sample_world)) =
    [PgExecute
       (Composed [SQL "INSERT INTO "; Identifier "user_logins"; SQL " (";
                  Composed [Identifier "user_id"; SQL ", ";
                            Identifier "device_type"; SQL ", ";
                            Identifier "locale"; SQL ", ";
                            Identifier "app_version"; SQL ", ";
                            Identifier "masked_ip"; SQL ", ";
                            Identifier "masked_device_id"; SQL ", ";
                            Identifier "create_date"];
                  SQL ") VALUES (%s, %s, %s, %s, %s, %s, %s);"])
       [VStr "42"; VStr "android"; VStr "fr-FR"; VStr "3102";
        VStr ".0.110.0"; VStr "-99dev"; VDate sample_day];
     PgCommit] /\
  nth_error (map Identifier (keys sample_row)) 4 = Some (Identifier "masked_ip") /\
  nth_error (values sample_row) 4 = Some (VStr ".0.110.0").
Proof.
  pose proof (write_binds_values_in_key_order sample_table sample_row sample_world)
    as [_ [_ [_ [_ Hnth]]]].
  split; [reflexivity|].
  apply (Hnth 4 "masked_ip" (VStr ".0.110.0")). reflexivity.
Defined.

Lemma write_is_atomic_witness :
  fst (write sample_table sample_row refusing_world) = Raise DatabaseError /\
  db (snd (write sample_table sample_row refusing_world)) = db refusing_world.
Proof.
  split; [reflexivity|].
  pose proof (write_is_atomic sample_table sample_row refusing_world) as [_ [_ H]].
  cbv in H. destruct H as [_ H]. apply H. reflexivity.
Defined.

(** ** Orchestrator *)

Section Loop.

Variable json_loads : string -> res value.
Variable queue_url : string.
Variable table : string.

Local Abbreviation receive := (receive_message json_loads queue_url).
Local Abbreviation pass := (iteration json_loads queue_url table).

Lemma receive_message_trace (w : world) :
  trace (snd (receive w)) =
  (trace w ++ SqsReceiveMessage queue_url ::
     match next_message w with
     | Some m => [SqsDeleteMessage queue_url (ReceiptHandle m)]
     | None => []
     end)%list.
Proof.
  unfold receive_message, next_message, bind, client_receive_message,
    _delete_message, client_delete_message, ret, lift.
  destruct (sqs_replies w) as [|[reply|e] later]; cbn; [reflexivity| |reflexivity].
  destruct (Messages reply) as [[|m rest]|]; cbn; try reflexivity.
  destruct (sqs_delete_ok w (ReceiptHandle m)); cbn; now rewrite <- app_assoc.
Qed.

(** Receiving does not touch the database. *)
Lemma receive_message_db (w : world) : db (snd (receive w)) = db w.
Proof.
  unfold receive_message, bind, client_receive_message,
    _delete_message, client_delete_message, ret, lift.
  destruct (sqs_replies w) as [|[reply|e] later]; cbn; [reflexivity| |reflexivity].
  destruct (Messages reply) as [[|m rest]|]; cbn; try reflexivity.
  destruct (sqs_delete_ok w (ReceiptHandle m)); reflexivity.
Qed.

Lemma receive_message_pg_calls (w : world) :
  pg_calls (trace (snd (receive w))) = pg_calls (trace w).
Proof.
  rewrite receive_message_trace. unfold pg_calls.
  rewrite filter_app. destruct (next_message w); cbn; apply app_nil_r.
Qed.

Lemma write_trace_extends (t : string) (row : dict) (w : world) :
  exists calls, trace (snd (write t row w)) = (trace w ++ calls)%list.
Proof.
  rewrite write_unfold.
  unfold with_connection, cursor_execute, connection_commit, connection_rollback.
  destruct (pg_accepts w (db w) _ _); cbn.
  - destruct (pg_commit_ok w _); cbn; rewrite <- app_assoc; eauto.
  - rewrite <- app_assoc; eauto.
Qed.

(** The body of the loop, case by case. *)
Lemma iteration_unfold (w : world) :
  pass w =
  match receive w with
  | (OK data, w1) =>
      match _is_valid data with
      | OK true =>
          match _transform (today w1) data with
          | OK row => write table row w1
          | Raise e => (Raise e, w1)
          end
      | OK false => (OK tt, w1)
      | Raise e => (Raise e, w1)
      end
  | (Raise e, w1) => (Raise e, w1)
  end.
Proof.
  unfold iteration, bind, lift, date_today, ret.
  destruct (receive w) as [[data|e] w1]; [|reflexivity].
  destruct (_is_valid data) as [[|]|e]; cbn; [|reflexivity..].
  destruct (_transform (today w1) data); reflexivity.
Qed.

(** Every pass opens with a receive request. *)
Lemma iteration_polls_first (w : world) :
  exists later,
    trace (snd (pass w)) = (trace w ++ SqsReceiveMessage queue_url :: later)%list.
Proof.
  rewrite iteration_unfold.
  pose proof (receive_message_trace w) as Ht.
  destruct (receive w) as [[data|e] w1]; cbn [snd] in Ht; [|eauto].
  destruct (_is_valid data) as [[|]|e]; cbn [snd]; eauto.
  destruct (_transform (today w1) data) as [row|e]; cbn [snd]; eauto.
  destruct (write_trace_extends table row w1) as [calls ->].
  rewrite Ht, <- app_assoc. cbn. eauto.
Qed.

(** C6: a pass of the loop sends something to the database only when
    the received event passed validation.  When the receive yields [None],
    the pass ends normally in the world the receive left, the database and
    the requests sent to it are as they were, the remaining passes of the
    loop go on from there, and the next pass opens with a receive request. *)
Theorem write_only_after_validation (w : world) :
  (pg_calls (trace (snd (pass w))) <> pg_calls (trace w) ->
   exists data, fst (receive w) = OK data /\ _is_valid data = OK true) /\
  (fst (receive w) = OK VNone ->
   pass w = (OK tt, snd (receive w)) /\
   db (snd (pass w)) = db w /\
   pg_calls (trace (snd (pass w))) = pg_calls (trace w) /\
   (forall n, start json_loads queue_url table (S n) w =
              start json_loads queue_url table n (snd (receive w))) /\
   (exists later,
      trace (snd (start json_loads queue_url table 2 w)) =
      (trace (snd (receive w)) ++ SqsReceiveMessage queue_url :: later)%list)).
Proof.
  pose proof (iteration_unfold w) as Hpass.
  pose proof (receive_message_pg_calls w) as Hcalls.
  pose proof (receive_message_db w) as Hdb.
  split.
  - intros Hsent. rewrite Hpass in Hsent.
    destruct (receive w) as [[data|e] w1]; cbn [fst snd] in *;
      [|congruence].
    destruct (_is_valid data) as [[|]|e] eqn:Hvalid; cbn [snd] in Hsent;
      [eauto | congruence | congruence].
  - intros Hnone.
    destruct (receive w) as [[data|e] w1] eqn:Hr; cbn [fst snd] in *;
      [|discriminate].
    injection Hnone as ->. cbn in Hpass.
    assert (Hstart : forall n, start json_loads queue_url table (S n) w =
                               start json_loads queue_url table n w1).
    { intros n. cbn [start]. unfold bind. now rewrite Hpass. }
    rewrite Hpass. cbn [snd].
    repeat split; try assumption.
    rewrite Hstart. cbn [start]. unfold bind, ret.
    destruct (iteration_polls_first w1) as [later Hlater].
    destruct (pass w1) as [[[]|e] w2]; cbn [snd] in *; eauto.
Qed.

End Loop.

Lemma write_only_after_validation_witness :
  (exists data,
     fst (receive_message sample_json_loads sample_queue_url sample_world) = OK data /\
     _is_valid data = OK true) /\
  iteration sample_json_loads sample_queue_url sample_table idle_world =
    (OK tt, snd (receive_message sample_json_loads sample_queue_url idle_world)).
Proof.
  split.
  - apply (proj1 (write_only_after_validation
                    sample_json_loads sample_queue_url sample_table sample_world)).
    vm_compute. discriminate.
  - apply (proj2 (write_only_after_validation
                    sample_json_loads sample_queue_url sample_table idle_world)).
    reflexivity.
Defined.

(** ** Scenarios of the specification *)

Example mask_abcdef : mask_str "abcdef" = "defabc" /\ mask_str "defabc" = "abcdef".
Proof. split; reflexivity. Qed.

Example strip_dots_version :
  strip_dots "1.2.3" = "123" /\ strip_dots "123" = "123".
Proof. split; reflexivity. Qed.

Example sample_event_accepted :
  _is_valid (VDict sample_event) = OK true /\
  _is_valid (VDict sample_without_locale) = OK false.
Proof. split; reflexivity. Qed.

Example sample_event_transformed :
  _transform sample_day (VDict sample_event) = OK sample_row.
Proof. reflexivity. Qed.

(** A list holding the six names passes validation and then fails in
    [_transform]; a number fails in validation itself. *)
Example non_dict_bodies :
  _is_valid (VList (map VStr _expected_raw_login_fields)) = OK true /\
  _transform sample_day (VList (map VStr _expected_raw_login_fields)) = Raise TypeError /\
  _is_valid (VInt 7) = Raise TypeError.
Proof. repeat split; reflexivity. Qed.

(** End to end: one pass over the sample world commits the sample row and
    the message has been deleted before the insert was sent. *)
Example end_to_end :
  let w := snd (start sample_json_loads sample_queue_url sample_table 1 sample_world) in
  committed (db w) = [(insert_statement sample_table sample_row, values sample_row)] /\
  pending (db w) = [] /\
  trace w = [SqsReceiveMessage sample_queue_url;
             SqsDeleteMessage sample_queue_url "receipt-1";
             PgExecute (insert_statement sample_table sample_row) (values sample_row);
             PgCommit].
Proof. repeat split; reflexivity. Qed.

(** * Further properties of the code *)

(** ** Masking *)

(** X1: a masked string has the length of the original and the same
    characters, each as many times. *)
Theorem mask_str_permutes (s : string) :
  len (mask_str s) = len s /\
  Permutation (list_ascii_of_string (mask_str s)) (list_ascii_of_string s).
Proof.
  split; [apply len_mask_str|].
  rewrite mask_str_as_list.
  rewrite <- (firstn_skipn (String.length s / 2) (list_ascii_of_string s)) at 3.
  apply Permutation_app_comm.
Qed.

(** X2: masking is a bijection on strings: two strings with the same
    masked form are equal, and every string is the masked form of a string
    of its length. *)
Theorem mask_str_bijective :
  (forall s t, mask_str s = mask_str t -> s = t) /\
  (forall t, exists s, len s = len t /\ mask_str s = t).
Proof.
  split; [apply mask_str_injective|].
  intros t.
  set (j := len t - len t / 2).
  set (lt := list_ascii_of_string t).
  assert (Hhalf : len t / 2 <= len t) by (apply Nat.Div0.div_le_upper_bound; lia).
  assert (Hlt : List.length lt = len t) by apply length_list_ascii_of_string.
  exists (slice_from j t ++ slice_to j t).
  assert (Hlist : list_ascii_of_string (slice_from j t ++ slice_to j t) =
                  (skipn j lt ++ firstn j lt)%list).
  { unfold slice_from, slice_to. rewrite <- string_of_list_ascii_app.
    apply list_ascii_of_string_of_list_ascii. }
  assert (Hlen : len (slice_from j t ++ slice_to j t) = len t).
  { unfold len at 1. rewrite <- length_list_ascii_of_string, Hlist.
    rewrite length_app, length_skipn, length_firstn. unfold j in *. lia. }
  split; [exact Hlen|].
  rewrite <- (string_of_list_ascii_of_string (mask_str _)).
  rewrite mask_str_as_list, Hlist.
  fold (len (slice_from j t ++ slice_to j t)). rewrite Hlen.
  rewrite swap_halves_back.
  - apply string_of_list_ascii_of_string.
  - unfold j. lia.
  - unfold j. lia.
Qed.

(** X3: a string of at most one character is its own masked form. *)
Theorem mask_str_short (s : string) : len s <= 1 -> mask_str s = s.
Proof.
  destruct s as [|c [|c' s]]; cbn; intros H; [reflexivity | reflexivity | lia].
Qed.

Lemma mask_str_short_witness : len "7" <= 1 /\ mask_str "7" = "7".
Proof.
  split; [cbn; lia | apply (mask_str_short "7"); cbn; lia].
Defined.

(** ** Version normalisation *)

Lemma has_dot_filter (v : string) :
  has_dot v = false ->
  filter (fun c => negb (Ascii.eqb "." c)) (list_ascii_of_string v) =
  list_ascii_of_string v.
Proof.
  induction v as [|c v IH]; [reflexivity|].
  cbn [has_dot list_ascii_of_string filter].
  intros H. apply orb_false_elim in H. destruct H as [Hc Hv].
  rewrite Hc. cbn [negb]. now rewrite IH.
Qed.

Lemma has_dot_strip_dots (v : string) : has_dot (strip_dots v) = false.
Proof.
  induction v as [|c v IH]; [reflexivity|].
  rewrite strip_dots_cons.
  destruct (ascii_dec "." c) as [Heq|Hne]; [exact IH|].
  cbn [has_dot]. apply Ascii.eqb_neq in Hne. now rewrite Hne, IH.
Qed.

Lemma list_ascii_of_string_inj (a b : string) :
  list_ascii_of_string a = list_ascii_of_string b -> a = b.
Proof.
  intros H.
  rewrite <- (string_of_list_ascii_of_string a), H.
  apply string_of_list_ascii_of_string.
Qed.

(** X4: the normalised version holds no dot, it is the characters of the
    version other than the dot in their order, and it is no longer than the
    version. *)
Theorem strip_dots_removes_every_dot (v : string) :
  has_dot (strip_dots v) = false /\
  list_ascii_of_string (strip_dots v) =
    filter (fun c => negb (Ascii.eqb "." c)) (list_ascii_of_string v) /\
  len (strip_dots v) <= len v.
Proof.
  split; [apply has_dot_strip_dots|split; [apply strip_dots_filter|]].
  unfold len. rewrite <- !length_list_ascii_of_string, strip_dots_filter.
  apply filter_length_le.
Qed.

(** X5: normalisation leaves a version unchanged exactly when the version
    holds no dot. *)
Theorem strip_dots_fixed_iff (v : string) :
  strip_dots v = v <-> has_dot v = false.
Proof.
  split.
  - intros H. rewrite <- H. apply has_dot_strip_dots.
  - intros H. apply list_ascii_of_string_inj.
    rewrite strip_dots_filter. now apply has_dot_filter.
Qed.

(** X6: normalising a concatenation is concatenating the normalised
    parts. *)
Theorem strip_dots_app (a b : string) :
  strip_dots (a ++ b) = strip_dots a ++ strip_dots b.
Proof.
  induction a as [|c a IH]; [reflexivity|].
  cbn [append]. rewrite !strip_dots_cons.
  destruct (ascii_dec "." c); [exact IH|].
  cbn [append]. now rewrite IH.
Qed.

(** ** Validation *)

Lemma all_fields_in_total (fields : list string) (data : value) :
  (forall f, exists b, contains f data = OK b) ->
  exists b, all_fields_in fields data = OK b.
Proof.
  intros Hc. induction fields as [|f fields IH]; cbn; [eauto|].
  destruct (Hc f) as [[|] ->]; cbn; eauto.
Qed.

(** X7: validation raises exactly on the values that are no container
    (booleans, numbers, dates), and what it raises is [TypeError]; on
    [None], a dict, a list or a str it answers. *)
Theorem is_valid_raises_iff (data : value) (e : exn) :
  _is_valid data = Raise e <-> is_scalar data = true /\ e = TypeError.
Proof.
  destruct data; cbn [is_scalar]; split;
    try (intros [H _]; discriminate H);
    try (intros [_ ->]; reflexivity);
    try (cbn; intros H; split; [reflexivity | congruence]).
  - discriminate.
  - intros H.
    destruct (all_fields_in_total _expected_raw_login_fields (VStr s)) as [b Hb];
      [cbn; eauto | unfold _is_valid in H; congruence].
  - intros H.
    destruct (all_fields_in_total _expected_raw_login_fields (VList items)) as [b Hb];
      [cbn; eauto | unfold _is_valid in H; congruence].
  - rewrite is_valid_dict. discriminate.
Qed.

(** X8: an event stays valid when keys are added to it or its entries
    are reordered: validity only grows with the set of keys. *)
Theorem is_valid_monotone (d d' : dict) :
  incl (keys d) (keys d') ->
  _is_valid (VDict d) = OK true -> _is_valid (VDict d') = OK true.
Proof.
  intros Hincl. rewrite !is_valid_dict. intros H.
  assert (Hall : forallb (fun f => dict_mem f d) _expected_raw_login_fields = true)
    by congruence.
  f_equal. rewrite forallb_forall in *. intros f Hf.
  apply dict_mem_In, Hincl, dict_mem_In, Hall, Hf.
Qed.

Lemma is_valid_monotone_witness :
  incl (keys sample_event) (keys sample_with_extras) /\
  _is_valid (VDict sample_with_extras) = OK true.
Proof.
  assert (Hincl : incl (keys sample_event) (keys sample_with_extras)).
  { intros k Hk. cbn in Hk. cbn.
    repeat (destruct Hk as [<-|Hk]; [tauto|]). contradiction. }
  split; [exact Hincl|].
  apply (is_valid_monotone sample_event sample_with_extras Hincl). reflexivity.
Defined.

(** ** Transformation *)

(** [_transform] in terms of the event it was given: the lookups it makes
    in the dictionary under change read the values the event had. *)
Lemma transform_cases (today : date) (d : dict) :
  _transform today (VDict d) =
  match dict_get "ip" d with
  | None => Raise (KeyError "ip")
  | Some ip =>
      let? masked_ip := _mask ip in
      match dict_get "device_id" d with
      | None => Raise (KeyError "device_id")
      | Some device_id =>
          let? masked_device_id := _mask device_id in
          match dict_get "app_version" d with
          | None => Raise (KeyError "app_version")
          | Some app_version =>
              let? stripped := value_replace_dots app_version in
              OK (remove_key "device_id"
                    (remove_key "ip"
                       (setitem "create_date" (VDate today)
                          (setitem "app_version" stripped
                             (setitem "masked_device_id" masked_device_id
                                (setitem "masked_ip" masked_ip d))))))
          end
      end
  end.
Proof.
  unfold _transform, getitem.
  destruct (dict_get "ip" d) as [ip|] eqn:Hip; [|reflexivity].
  cbn [res_bind]. destruct (_mask ip) as [m1|e]; [|reflexivity].
  cbn [res_bind]. rewrite dict_get_setitem_neq by distinct_keys.
  destruct (dict_get "device_id" d) as [dev|] eqn:Hdev; [|reflexivity].
  cbn [res_bind]. destruct (_mask dev) as [m2|e]; [|reflexivity].
  cbn [res_bind]. rewrite !dict_get_setitem_neq by distinct_keys.
  destruct (dict_get "app_version" d) as [ver|] eqn:Hver; [|reflexivity].
  cbn [res_bind]. destruct (value_replace_dots ver) as [v|e]; [|reflexivity].
  cbn [res_bind].
  erewrite delitem_ok
    by (rewrite !dict_get_setitem_neq by distinct_keys; exact Hip).
  cbn [res_bind].
  erewrite delitem_ok
    by (rewrite dict_get_remove_key_neq by distinct_keys;
        rewrite !dict_get_setitem_neq by distinct_keys; exact Hdev).
  reflexivity.
Qed.

Lemma mask_ok_iff (v : value) :
  (exists m, _mask v = OK m) <-> is_sequence v = true.
Proof.
  destruct v; cbn; split; try discriminate; eauto;
    intros [m H]; discriminate.
Qed.


Lemma replace_dots_ok_iff (v : value) :
  (exists r, value_replace_dots v = OK r) <-> is_str v = true.
Proof.
  destruct v; cbn; split; try discriminate; eauto;
    intros [m H]; discriminate.
Qed.




(** X10: [_transform] returns a row exactly when the event holds a str
    or a list under [ip] and under [device_id], and a str under
    [app_version]. *)
Theorem transform_returns_iff (today : date) (d : dict) :
  (exists row, _transform today (VDict d) = OK row) <->
  (exists ip device_id app_version,
     dict_get "ip" d = Some ip /\ is_sequence ip = true /\
     dict_get "device_id" d = Some device_id /\ is_sequence device_id = true /\
     dict_get "app_version" d = Some app_version /\ is_str app_version = true).
Proof.
  rewrite transform_cases. split.
  - intros [row H].
    destruct (dict_get "ip" d) as [ip|]; [|discriminate].
    destruct (_mask ip) as [m1|e] eqn:H1; [|discriminate]. cbn [res_bind] in H.
    destruct (dict_get "device_id" d) as [dev|]; [|discriminate].
    destruct (_mask dev) as [m2|e] eqn:H2; [|discriminate]. cbn [res_bind] in H.
    destruct (dict_get "app_version" d) as [ver|]; [|discriminate].
    destruct (value_replace_dots ver) as [v|e] eqn:H3; [|discriminate].
    exists ip, dev, ver.
    repeat split; try reflexivity.
    + apply mask_ok_iff; eauto.
    + apply mask_ok_iff; eauto.
    + apply replace_dots_ok_iff; eauto.
  - intros (ip & dev & ver & -> & Hip & -> & Hdev & -> & Hver).
    apply mask_ok_iff in Hip, Hdev. apply replace_dots_ok_iff in Hver.
    destruct Hip as [m1 ->], Hdev as [m2 ->], Hver as [v ->].
    cbn [res_bind]. eauto.
Qed.

(** X11: a row [_transform] returned has neither [ip] nor [device_id],
    so it does not pass validation again. *)
Theorem transform_row_drops_identifiers (today : date) (data : value) (row : dict) :
  _transform today data = OK row ->
  dict_get "ip" row = None /\ dict_get "device_id" row = None /\
  _is_valid (VDict row) = OK false.
Proof.
  intros H. apply transform_shape in H.
  destruct H as (d & m1 & m2 & v & _ & ->).
  assert (Hip : forall d0, dict_get "ip" (remove_key "device_id" (remove_key "ip" d0))
                           = None).
  { intros d0. rewrite dict_get_remove_key_neq by distinct_keys.
    apply dict_get_remove_key_eq. }
  split; [apply Hip|]. split; [apply dict_get_remove_key_eq|].
  rewrite is_valid_dict. f_equal.
  cbn [forallb _expected_raw_login_fields].
  unfold dict_mem at 3. rewrite Hip.
  now destruct (dict_mem "user_id" _), (dict_mem "device_type" _).
Qed.

Lemma transform_row_drops_identifiers_witness :
  dict_get "ip" sample_row = None /\ dict_get "device_id" sample_row = None /\
  _is_valid (VDict sample_row) = OK false.
Proof.
  apply (transform_row_drops_identifiers sample_day (VDict sample_event) sample_row).
  reflexivity.
Defined.

(** X12: the iteration order of the row, which is the column order of the
    INSERT.  When the event has none of the three keys [_transform] adds,
    the row has the keys of the event in their order, without [ip] and
    [device_id], followed by [masked_ip], [masked_device_id] and
    [create_date]. *)
Theorem transform_key_order (today : date) (d row : dict) :
  ~ In "masked_ip" (keys d) -> ~ In "masked_device_id" (keys d) ->
  ~ In "create_date" (keys d) ->
  _transform today (VDict d) = OK row ->
  keys row =
  (filter (fun k => negb ("device_id" =? k))
     (filter (fun k => negb ("ip" =? k)) (keys d))
   ++ ["masked_ip"; "masked_device_id"; "create_date"])%list.
Proof.
  intros Hmi Hmd Hcd H.
  assert (Hver : In "app_version" (keys d)).
  { apply dict_get_In_keys. rewrite transform_cases in H.
    destruct (dict_get "ip" d) as [ip|]; [|discriminate].
    destruct (_mask ip); [|discriminate]. cbn [res_bind] in H.
    destruct (dict_get "device_id" d) as [dev|]; [|discriminate].
    destruct (_mask dev); [|discriminate]. cbn [res_bind] in H.
    destruct (dict_get "app_version" d) as [ver|]; [eauto | discriminate]. }
  apply transform_shape in H.
  destruct H as (d0 & m1 & m2 & v & Hd & ->). injection Hd as <-.
  rewrite !keys_remove_key_filter.
  assert (K1 : keys (setitem "masked_ip" m1 d) = (keys d ++ ["masked_ip"])%list)
    by (apply setitem_keys_fresh; exact Hmi).
  assert (K2 : keys (setitem "masked_device_id" m2 (setitem "masked_ip" m1 d)) =
               (keys d ++ ["masked_ip"; "masked_device_id"])%list).
  { rewrite setitem_keys_fresh, K1, <- app_assoc; [reflexivity|].
    rewrite K1. intros Hin. apply in_app_or in Hin.
    destruct Hin as [Hin|[Heq|[]]]; [contradiction | discriminate Heq]. }
  assert (K3 : keys (setitem "app_version" v
                       (setitem "masked_device_id" m2 (setitem "masked_ip" m1 d))) =
               (keys d ++ ["masked_ip"; "masked_device_id"])%list).
  { rewrite setitem_keys_present, K2; [reflexivity|].
    rewrite K2. apply in_or_app. now left. }
  rewrite setitem_keys_fresh, K3.
  - rewrite <- app_assoc, !filter_app. reflexivity.
  - rewrite K3. intros Hin. apply in_app_or in Hin.
    destruct Hin as [Hin|[Heq|[Heq|[]]]];
      [contradiction | discriminate Heq | discriminate Heq].
Qed.

Lemma transform_key_order_witness :
  keys sample_row =
  ["user_id"; "device_type"; "locale"; "app_version";
   "masked_ip"; "masked_device_id"; "create_date"].
Proof.
  assert (Hfresh : forall k, keys sample_event = keys sample_event ->
                             (k = "masked_ip" \/ k = "masked_device_id" \/
                              k = "create_date") ->
                             ~ In k (keys sample_event)).
  { intros k _ Hk Hin. cbn in Hin.
    destruct Hk as [-> | [-> | ->]];
      repeat (destruct Hin as [Hin|Hin]; [discriminate Hin|]); contradiction. }
  apply (transform_key_order sample_day sample_event sample_row);
    [apply Hfresh; auto .. | reflexivity].
Defined.

(** ** Queue client, store client and loop *)

(** The calls of [write]: an execute, then the end of the transaction. *)
Lemma write_cases (t : string) (row : dict) (w : world) :
  let statement := insert_statement t row in
  let opened := mkDatabase (committed (db w))
                           (pending (db w) ++ [(statement, values row)]) in
  write t row w =
  if pg_accepts w (db w) statement (values row)
  then
    if pg_commit_ok w opened
    then (OK tt,
          set_db (mkDatabase (committed opened ++ pending opened) [])
            (log PgCommit (set_db opened (log (PgExecute statement (values row)) w))))
    else (Raise DatabaseError,
          set_db (mkDatabase (committed opened) [])
            (log PgCommit (set_db opened (log (PgExecute statement (values row)) w))))
  else (Raise DatabaseError,
        set_db (mkDatabase (committed (db w)) [])
          (log PgRollback (log (PgExecute statement (values row)) w))).
Proof.
  intros statement opened. rewrite write_unfold. fold statement.
  unfold with_connection, cursor_execute, connection_commit, connection_rollback.
  destruct (pg_accepts w (db w) statement (values row)); cbn; [|reflexivity].
  fold opened. destruct (pg_commit_ok w opened); reflexivity.
Qed.


Section Runs.

Variable json_loads : string -> res value.
Variable queue_url : string.
Variable table : string.

Local Abbreviation receive := (receive_message json_loads queue_url).
Local Abbreviation pass := (iteration json_loads queue_url table).
Local Abbreviation run := (start json_loads queue_url table).

(** [receive_message] when the reply holds a message. *)
Lemma receive_message_some (w : world) (m : message) :
  next_message w = Some m ->
  receive w =
  let w1 := set_sqs_replies (tl (sqs_replies w))
              (log (SqsReceiveMessage queue_url) w) in
  let w2 := log (SqsDeleteMessage queue_url (ReceiptHandle m)) w1 in
  if sqs_delete_ok w (ReceiptHandle m)
  then (json_loads (Body m), w2)
  else (Raise ClientError, w2).
Proof.
  unfold next_message, receive_message, bind, client_receive_message,
    _delete_message, client_delete_message, ret, lift.
  destruct (sqs_replies w) as [|[reply|e] later]; try discriminate.
  destruct (Messages reply) as [[|m' rest]|]; try discriminate.
  intros H. injection H as ->. cbn.
  destruct (sqs_delete_ok w (ReceiptHandle m)); reflexivity.
Qed.

(** X14: a message whose body cannot be parsed is gone all the same:
    [receive_message] raises what [json.loads] raised, after the reply was
    consumed and the deletion request for the message was sent. *)
Theorem receive_message_unparsed_is_deleted (w : world) (m : message) (e : exn) :
  next_message w = Some m ->
  sqs_delete_ok w (ReceiptHandle m) = true ->
  json_loads (Body m) = Raise e ->
  fst (receive w) = Raise e /\
  sqs_replies (snd (receive w)) = tl (sqs_replies w) /\
  trace (snd (receive w)) =
    (trace w ++ [SqsReceiveMessage queue_url;
                 SqsDeleteMessage queue_url (ReceiptHandle m)])%list.
Proof.
  intros Hm Hdel Hbody. rewrite (receive_message_some w m Hm).
  cbv zeta. rewrite Hdel, Hbody. cbn. now rewrite <- app_assoc.
Qed.

(** X15: when the queue refuses the deletion, [receive_message] raises
    [ClientError] instead of returning the body it retrieved; the reply is
    consumed. *)
Theorem receive_message_refused_deletion (w : world) (m : message) :
  next_message w = Some m ->
  sqs_delete_ok w (ReceiptHandle m) = false ->
  fst (receive w) = Raise ClientError /\
  sqs_replies (snd (receive w)) = tl (sqs_replies w) /\
  trace (snd (receive w)) =
    (trace w ++ [SqsReceiveMessage queue_url;
                 SqsDeleteMessage queue_url (ReceiptHandle m)])%list.
Proof.
  intros Hm Hdel. rewrite (receive_message_some w m Hm).
  cbv zeta. rewrite Hdel. cbn. now rewrite <- app_assoc.
Qed.

(** X16: an event that fails validation is dropped: the pass ends
    normally in the world the receive left and sends the database
    nothing. *)
Theorem invalid_event_is_dropped (w : world) (data : value) :
  fst (receive w) = OK data -> _is_valid data = OK false ->
  pass w = (OK tt, snd (receive w)) /\
  db (snd (pass w)) = db w /\
  pg_calls (trace (snd (pass w))) = pg_calls (trace w).
Proof.
  intros Hr Hv.
  pose proof (iteration_unfold json_loads queue_url table w) as Hpass.
  pose proof (receive_message_db json_loads queue_url w) as Hdb.
  pose proof (receive_message_pg_calls json_loads queue_url w) as Hcalls.
  destruct (receive w) as [[data'|e] w1]; cbn [fst snd] in *; [|discriminate].
  injection Hr as ->. rewrite Hv in Hpass. rewrite Hpass. auto.
Qed.

(** X17: a message is lost when the database refuses its row.  The
    message is valid and transformed, the statement is refused: the pass
    raises [DatabaseError] after the deletion request was sent, the
    transaction is rolled back and nothing is committed. *)
Theorem refused_row_loses_message
  (w : world) (m : message) (data : value) (row : dict) :
  next_message w = Some m ->
  sqs_delete_ok w (ReceiptHandle m) = true ->
  json_loads (Body m) = OK data ->
  _is_valid data = OK true ->
  _transform (today w) data = OK row ->
  pg_accepts w (db w) (insert_statement table row) (values row) = false ->
  fst (pass w) = Raise DatabaseError /\
  trace (snd (pass w)) =
    (trace w ++ [SqsReceiveMessage queue_url;
                 SqsDeleteMessage queue_url (ReceiptHandle m);
                 PgExecute (insert_statement table row) (values row);
                 PgRollback])%list /\
  committed (db (snd (pass w))) = committed (db w) /\
  pending (db (snd (pass w))) = [].
Proof.
  intros Hm Hdel Hbody Hvalid Hrow Hrefuse.
  rewrite iteration_unfold, (receive_message_some w m Hm).
  cbv zeta. rewrite Hdel, Hbody, Hvalid. cbn [today log set_sqs_replies].
  rewrite Hrow.
  pose proof (write_cases table row
                (log (SqsDeleteMessage queue_url (ReceiptHandle m))
                   (set_sqs_replies (tl (sqs_replies w))
                      (log (SqsReceiveMessage queue_url) w)))) as Hw.
  cbv zeta in Hw. cbn [pg_accepts db log set_sqs_replies] in Hw.
  rewrite Hrefuse in Hw. rewrite Hw. cbn.
  rewrite <- !app_assoc. auto.
Qed.

(** X18: the pass that stores a row.  The message is valid and
    transformed, the database accepts the statement and the commit: the
    pass ends normally, it sent receive, delete, execute and commit in this
    order, and what is committed has grown by the statement with the values
    of the row. *)
Theorem accepted_row_is_committed
  (w : world) (m : message) (data : value) (row : dict) :
  let statement := insert_statement table row in
  next_message w = Some m ->
  sqs_delete_ok w (ReceiptHandle m) = true ->
  json_loads (Body m) = OK data ->
  _is_valid data = OK true ->
  _transform (today w) data = OK row ->
  pg_accepts w (db w) statement (values row) = true ->
  pg_commit_ok w (mkDatabase (committed (db w))
                             (pending (db w) ++ [(statement, values row)])) = true ->
  fst (pass w) = OK tt /\
  trace (snd (pass w)) =
    (trace w ++ [SqsReceiveMessage queue_url;
                 SqsDeleteMessage queue_url (ReceiptHandle m);
                 PgExecute statement (values row);
                 PgCommit])%list /\
  committed (db (snd (pass w))) =
    (committed (db w) ++ pending (db w) ++ [(statement, values row)])%list /\
  pending (db (snd (pass w))) = [].
Proof.
  intros statement Hm Hdel Hbody Hvalid Hrow Haccept Hcommit.
  rewrite iteration_unfold, (receive_message_some w m Hm).
  cbv zeta. rewrite Hdel, Hbody, Hvalid. cbn [today log set_sqs_replies].
  rewrite Hrow.
  pose proof (write_cases table row
                (log (SqsDeleteMessage queue_url (ReceiptHandle m))
                   (set_sqs_replies (tl (sqs_replies w))
                      (log (SqsReceiveMessage queue_url) w)))) as Hw.
  cbv zeta in Hw. cbn [pg_accepts pg_commit_ok db log set_sqs_replies] in Hw.
  fold statement in Hw. rewrite Haccept, Hcommit in Hw. rewrite Hw. cbn.
  rewrite <- !app_assoc. auto.
Qed.

End Runs.

Lemma count_receives_app (t u : list call) :
  count_receives (t ++ u) = count_receives t + count_receives u.
Proof. unfold count_receives. now rewrite filter_app, length_app. Qed.

Lemma write_count_receives (t : string) (row : dict) (w : world) :
  count_receives (trace (snd (write t row w))) = count_receives (trace w).
Proof.
  pose proof (write_cases t row w) as H. cbv zeta in H. rewrite H.
  destruct (pg_accepts w (db w) _ _); [destruct (pg_commit_ok w _)|];
    cbn [snd]; unfold set_db, log; cbn [trace];
    rewrite !count_receives_app; cbn; lia.
Qed.

(** What [write] does to the store when no transaction is open. *)
Lemma write_db (t : string) (row : dict) (w : world) :
  pending (db w) = [] ->
  pending (db (snd (write t row w))) = [] /\
  (committed (db (snd (write t row w))) = committed (db w) \/
   committed (db (snd (write t row w))) =
     (committed (db w) ++ [(insert_statement t row, values row)])%list).
Proof.
  intros Hp. pose proof (write_cases t row w) as H. cbv zeta in H. rewrite H.
  destruct (pg_accepts w (db w) _ _); [destruct (pg_commit_ok w _)|];
    cbn; rewrite ?Hp; auto.
Qed.

Section Loops.

Variable json_loads : string -> res value.
Variable queue_url : string.
Variable table : string.

Local Abbreviation receive := (receive_message json_loads queue_url).
Local Abbreviation pass := (iteration json_loads queue_url table).
Local Abbreviation run := (start json_loads queue_url table).

Local Abbreviation is_insert := (is_insert_into table).

Lemma run_step (n : nat) (w : world) :
  run (S n) w =
  match pass w with
  | (OK _, w') => run n w'
  | (Raise e, w') => (Raise e, w')
  end.
Proof. reflexivity. Qed.

Lemma pass_count_receives (w : world) :
  count_receives (trace (snd (pass w))) = count_receives (trace w) + 1.
Proof.
  rewrite iteration_unfold.
  pose proof (receive_message_trace json_loads queue_url w) as Ht.
  assert (Hc : count_receives (trace (snd (receive w))) =
               count_receives (trace w) + 1).
  { rewrite Ht, count_receives_app.
    destruct (next_message w); reflexivity. }
  destruct (receive w) as [[data|e] w1]; cbn [snd] in *; [|exact Hc].
  destruct (_is_valid data) as [[|]|e]; cbn [snd]; try exact Hc.
  destruct (_transform (today w1) data) as [row|e]; cbn [snd]; [|exact Hc].
  now rewrite write_count_receives.
Qed.

Lemma pass_db (w : world) :
  pending (db w) = [] ->
  pending (db (snd (pass w))) = [] /\
  exists added,
    committed (db (snd (pass w))) = (committed (db w) ++ added)%list /\
    List.length added <= 1 /\ Forall is_insert added.
Proof.
  intros Hp. rewrite iteration_unfold.
  pose proof (receive_message_db json_loads queue_url w) as Hdb.
  assert (Hsame : pending (db (snd (receive w))) = [] /\
                  exists added,
                    committed (db (snd (receive w))) = (committed (db w) ++ added)%list /\
                    List.length added <= 1 /\ Forall is_insert added).
  { rewrite Hdb. split; [exact Hp|]. exists []. rewrite app_nil_r. cbn. auto. }
  destruct (receive w) as [[data|e] w1]; cbn [snd] in *; [|exact Hsame].
  destruct (_is_valid data) as [[|]|e]; cbn [snd]; try exact Hsame.
  destruct (_transform (today w1) data) as [row|e]; cbn [snd]; [|exact Hsame].
  destruct (write_db table row w1) as [Hp' Hc]; [now rewrite Hdb|].
  split; [exact Hp'|]. rewrite <- Hdb.
  destruct Hc as [-> | ->].
  - exists []. rewrite app_nil_r. cbn. auto.
  - eexists. split; [reflexivity|]. cbn. split; [lia|].
    constructor; [now exists row | constructor].
Qed.

(** X19: [n] passes of the loop send at most [n] receive requests, and
    exactly [n] when none of them raised: every pass polls the queue once,
    and the loop stops at the first pass that raises. *)
Theorem run_polls_once_per_pass (n : nat) (w : world) :
  count_receives (trace (snd (run n w))) <= count_receives (trace w) + n /\
  (fst (run n w) = OK tt ->
   count_receives (trace (snd (run n w))) = count_receives (trace w) + n).
Proof.
  revert w. induction n as [|n IH]; intros w.
  - cbn. split; [lia | intros _; lia].
  - rewrite run_step. pose proof (pass_count_receives w) as Hp.
    destruct (pass w) as [[[]|e] w1]; cbn [fst snd] in *.
    + destruct (IH w1) as [Hle Heq]. split; [lia|].
      intros Hok. rewrite (Heq Hok). lia.
    + split; [lia | discriminate].
Qed.

(** X20: the loop only adds to the store.  Started without an open
    transaction, [n] passes leave no transaction open, and what is committed
    afterwards is what was committed before followed by at most [n]
    statements, each an INSERT that [write] built for the table of the
    service. *)
Theorem run_only_inserts (n : nat) (w : world) :
  pending (db w) = [] ->
  pending (db (snd (run n w))) = [] /\
  exists added,
    committed (db (snd (run n w))) = (committed (db w) ++ added)%list /\
    List.length added <= n /\ Forall is_insert added.
Proof.
  revert w. induction n as [|n IH]; intros w Hp.
  - cbn. split; [exact Hp|]. exists []. rewrite app_nil_r. cbn. auto.
  - rewrite run_step. destruct (pass_db w Hp) as [Hp1 (a1 & Hc1 & Hl1 & Hi1)].
    destruct (pass w) as [[[]|e] w1]; cbn [fst snd] in *.
    + destruct (IH w1 Hp1) as [Hp2 (a2 & Hc2 & Hl2 & Hi2)].
      split; [exact Hp2|]. exists (a1 ++ a2)%list.
      rewrite Hc2, Hc1, <- app_assoc, length_app.
      split; [reflexivity|]. split; [lia|]. apply Forall_app. auto.
    + split; [exact Hp1|]. exists a1. split; [exact Hc1|]. split; [lia | exact Hi1].
Qed.

End Loops.

(** ** Runs on the sample worlds *)

Lemma receive_message_unparsed_is_deleted_witness :
  fst (receive_message sample_json_loads sample_queue_url garbled_world) =
    Raise JSONDecodeError /\
  sqs_replies (snd (receive_message sample_json_loads sample_queue_url garbled_world)) =
    [] /\
  trace (snd (receive_message sample_json_loads sample_queue_url garbled_world)) =
    [SqsReceiveMessage sample_queue_url;
     SqsDeleteMessage sample_queue_url "receipt-2"].
Proof.
  apply (receive_message_unparsed_is_deleted
           sample_json_loads sample_queue_url garbled_world
           (mkMessage "receipt-2" "{") JSONDecodeError); reflexivity.
Defined.

Lemma receive_message_refused_deletion_witness :
  fst (receive_message sample_json_loads sample_queue_url undeletable_world) =
    Raise ClientError /\
  sqs_replies (snd (receive_message sample_json_loads sample_queue_url
                      undeletable_world)) = [] /\
  trace (snd (receive_message sample_json_loads sample_queue_url undeletable_world)) =
    [SqsReceiveMessage sample_queue_url;
     SqsDeleteMessage sample_queue_url "receipt-1"].
Proof.
  apply (receive_message_refused_deletion
           sample_json_loads sample_queue_url undeletable_world sample_message);
    reflexivity.
Defined.

Lemma invalid_event_is_dropped_witness :
  iteration incomplete_json_loads sample_queue_url sample_table sample_world =
    (OK tt, snd (receive_message incomplete_json_loads sample_queue_url sample_world)) /\
  db (snd (iteration incomplete_json_loads sample_queue_url sample_table sample_world)) =
    db sample_world /\
  pg_calls (trace (snd (iteration incomplete_json_loads sample_queue_url sample_table
                          sample_world))) = pg_calls (trace sample_world).
Proof.
  apply (invalid_event_is_dropped
           incomplete_json_loads sample_queue_url sample_table sample_world
           (VDict sample_without_locale)); reflexivity.
Defined.

Lemma refused_row_loses_message_witness :
  fst (iteration sample_json_loads sample_queue_url sample_table refused_insert_world) =
    Raise DatabaseError /\
  trace (snd (iteration sample_json_loads sample_queue_url sample_table
                refused_insert_world)) =
    [SqsReceiveMessage sample_queue_url;
     SqsDeleteMessage sample_queue_url "receipt-1";
     PgExecute (insert_statement sample_table sample_row) (values sample_row);
     PgRollback] /\
  committed (db (snd (iteration sample_json_loads sample_queue_url sample_table
                        refused_insert_world))) = [] /\
  pending (db (snd (iteration sample_json_loads sample_queue_url sample_table
                      refused_insert_world))) = [].
Proof.
  apply (refused_row_loses_message
           sample_json_loads sample_queue_url sample_table refused_insert_world
           sample_message (VDict sample_event) sample_row); reflexivity.
Defined.

Lemma accepted_row_is_committed_witness :
  fst (iteration sample_json_loads sample_queue_url sample_table sample_world) = OK tt /\
  trace (snd (iteration sample_json_loads sample_queue_url sample_table sample_world)) =
    [SqsReceiveMessage sample_queue_url;
     SqsDeleteMessage sample_queue_url "receipt-1";
     PgExecute (insert_statement sample_table sample_row) (values sample_row);
     PgCommit] /\
  committed (db (snd (iteration sample_json_loads sample_queue_url sample_table
                        sample_world))) =
    [(insert_statement sample_table sample_row, values sample_row)] /\
  pending (db (snd (iteration sample_json_loads sample_queue_url sample_table
                      sample_world))) = [].
Proof.
  apply (accepted_row_is_committed
           sample_json_loads sample_queue_url sample_table sample_world
           sample_message (VDict sample_event) sample_row); reflexivity.
Defined.

Lemma run_polls_once_per_pass_witness :
  fst (start sample_json_loads sample_queue_url sample_table 3 idle_world) = OK tt /\
  count_receives
    (trace (snd (start sample_json_loads sample_queue_url sample_table 3 idle_world))) = 3.
Proof.
  split; [reflexivity|].
  apply (proj2 (run_polls_once_per_pass
                  sample_json_loads sample_queue_url sample_table 3 idle_world)).
  reflexivity.
Defined.

Lemma run_only_inserts_witness :
  pending (db (snd (start sample_json_loads sample_queue_url sample_table 2
                      sample_world))) = [] /\
  exists added,
    committed (db (snd (start sample_json_loads sample_queue_url sample_table 2
                          sample_world))) = (committed (db sample_world) ++ added)%list /\
    List.length added <= 2 /\ Forall (is_insert_into sample_table) added.
Proof.
  apply (run_only_inserts sample_json_loads sample_queue_url sample_table 2 sample_world).
  reflexivity.
Defined.
